(** * Face-swap service: model lifecycle and request pipeline

    A shallow embedding of [main_fixed.py] (the FastAPI service with
    automatic model-corruption recovery) and the properties of its
    model-loading state machine, image ingest and request pipeline.

    Conventions of the embedding.
    - Python exceptions are values of [exn]; a call that may raise returns
      a [result].  Code that touches the file system, the process-wide
      engine globals or the [lru_cache] slot is a function
      [State -> State * result A], written with the monad [M] below.
    - The libraries the service calls (ONNX Runtime, InsightFace,
      requests, Pillow) are not part of the repository.  Their behaviour is
      a parameter of the development: the class [Collaborators].  Every
      call to one of them is recorded in the [log] of the state, so that
      "the engine was (not) invoked" is a statement about that log.
    - Python [int] is [Z]; Python [float] is the IEEE-754 binary64 type
      [float] of the kernel, the same arithmetic CPython uses. *)

From Stdlib Require Import ZArith Floats Uint63 QArith Lia Ascii.
From stdpp Require Import base gmap strings list pretty sorting.

Open Scope Z_scope.

(** ** Exceptions and results *)

(** The exception classes the service distinguishes in its [except]
    clauses: FastAPI's [HTTPException], [requests.RequestException], and
    every other subclass of [Exception]. *)
Inductive exn : Type :=
| HTTPException (status_code : Z) (detail : string)
| RequestException (msg : string)
| Exception (msg : string).

Inductive result (A : Type) : Type :=
| Ok (a : A)
| Raise (e : exn).
Arguments Ok {A} a.
Arguments Raise {A} e.

Definition raised {A} (r : result A) : bool :=
  match r with Raise _ => true | Ok _ => false end.

(** ** Data of the service *)

(** A decoded image, [numpy] array of shape [(height, width, 3)]; the
    pixel buffer is kept flat. *)
Record ndarray : Type := { height : Z; width : Z; pixels : list Z }.

(** A Pillow image before conversion to an array. *)
Record PILImage : Type := { mode : string; im : ndarray }.

(** One detection: [bbox = (left, top, right, bottom)] in pixel
    coordinates and the opaque embedding/landmark payload.  The
    coordinates are finite floats; only their order matters here, so
    they are kept as the rationals they denote. *)
Record Face : Type := { bbox : Q * Q * Q * Q; payload : Z }.

(** [x.bbox[0]] *)
Definition bbox0 (x : Face) : Q := x.(bbox).1.1.1.

(** The two engines.  A handle records how it was built. *)
Record FaceAnalysisApp : Type :=
  { fa_name : string; fa_ctx_id : Z; fa_det_size : Z * Z }.
Record SwapperModel : Type := { loaded_from : string }.

(** What [requests.get] hands back once it returns: status line, the
    [content-length] header if any, and the body, already read in full
    (the call is made without [stream=True]). *)
Record Response : Type :=
  { status : Z; content_length : option string; content : string }.

(** Calls that leave the process, in the order they are made. *)
Inductive Event : Type :=
| OrtInferenceSession (model_path : string)
| LoadAttempt (model_path : string) (attempt max_retries : Z)
| ModelZooGetModel (name : string) (download : bool)
| FaceAnalysisPrepare
| RequestsGet (url : string) (body_bytes : nat)
| ImageOpen (body_bytes : nat)
| FaceAnalysisGet (image : ndarray)
| SwapperGet (image : ndarray).

(** Outcome of [insightface.model_zoo.get_model]: a model object, [None],
    or an exception. *)
Inductive get_model_outcome : Type :=
| Loaded
| ReturnedNone
| GetModelRaised (msg : string).

(** The file system: regular files by absolute path, with their bytes. *)
Abbreviation FS := (gmap string string).

(** ** External collaborators *)

(** The calls to the operating system that it may refuse for reasons
    outside the file tree (permissions, a read-only or full medium),
    each with the absolute path it is about. *)
Inductive OsCall : Type :=
| Unlink (path : string)
| WriteFile (path : string)
| ListDir (path : string).

Class Collaborators : Type := {
  (** process environment *)
  cwd : string;
  home : string;
  (** the operating system refuses this call *)
  os_refuses : OsCall -> bool;
  (** [ort.InferenceSession(path)] succeeds on a file with these bytes *)
  ort_loads : string -> bool;
  (** [insightface.model_zoo.get_model(name, download=.., download_zip=..)];
      it may write to the file system *)
  model_zoo_get_model :
    list Event -> FS -> string -> bool -> FS * get_model_outcome;
  (** [FaceAnalysis(name='buffalo_l')] followed by [prepare]; [Some msg]
      when it raises *)
  face_analysis_prepare : list Event -> FS -> FS * option string;
  (** [face_analysis_app.get(image)] *)
  face_analysis_get : list Event -> ndarray -> result (list Face);
  (** [swapper_model.get(target, target_face, source_face, paste_back=True)] *)
  swapper_get :
    list Event -> SwapperModel -> ndarray -> Face -> Face -> result ndarray;
  (** [requests.get(url, timeout=30, headers=..)] *)
  requests_get : list Event -> string -> result Response;
  (** [Image.open(io.BytesIO(content))] *)
  image_open : string -> result PILImage;
  (** pixel buffer of [image.convert('RGB')] *)
  convert_rgb : PILImage -> list Z;
  (** pixel buffer of [resize((w, h), Image.Resampling.LANCZOS)] *)
  lanczos : ndarray -> Z -> Z -> list Z;
  (** PNG encoding followed by base64; may raise *)
  png_base64 : ndarray -> result string;
  (** [str(e)] for an [HTTPException] (framework-version dependent) *)
  http_exception_str : Z -> string -> string
}.

(** [str(e)] *)
Definition str_exn `{Collaborators} (e : exn) : string :=
  match e with
  | HTTPException sc d => http_exception_str sc d
  | RequestException m => m
  | Exception m => m
  end.

(** ** Process state *)

Record State : Type := {
  fs : FS;
  log : list Event;
  (** the single slot of [@lru_cache(maxsize=1)] on [get_cached_models] *)
  lru : option (FaceAnalysisApp * SwapperModel);
  (** the module globals *)
  face_analysis_app : option FaceAnalysisApp;
  swapper_model : option SwapperModel
}.

Definition M (A : Type) : Type := State -> State * result A.

Definition ret {A} (a : A) : M A := fun st => (st, Ok a).
Definition raise {A} (e : exn) : M A := fun st => (st, Raise e).
Definition bind {A B} (m : M A) (k : A -> M B) : M B :=
  fun st => match m st with
            | (st', Ok a) => k a st'
            | (st', Raise e) => (st', Raise e)
            end.
(** [try: m  except Exception as e: h e] *)
Definition try_except {A} (m : M A) (h : exn -> M A) : M A :=
  fun st => match m st with
            | (st', Ok a) => (st', Ok a)
            | (st', Raise e) => h e st'
            end.
Definition lift {A} (r : result A) : M A := fun st => (st, r).

Declare Scope py_scope.
Delimit Scope py_scope with py.
Notation "x <- m ;; k" := (bind m (fun x => k))
  (at level 100, m at next level, right associativity) : py_scope.
Notation "m ;;; k" := (bind m (fun _ => k))
  (at level 100, right associativity) : py_scope.

Definition emit (e : Event) : M unit :=
  fun st => ({| fs := st.(fs); log := st.(log) ++ [e]; lru := st.(lru);
                face_analysis_app := st.(face_analysis_app);
                swapper_model := st.(swapper_model) |}, Ok tt).

Definition set_fs (f : FS) : M unit :=
  fun st => ({| fs := f; log := st.(log); lru := st.(lru);
                face_analysis_app := st.(face_analysis_app);
                swapper_model := st.(swapper_model) |}, Ok tt).

(** ** Python floats *)

Module PyFloat.

(** The value of a 63-bit machine integer, stopping at the last set
    bit. *)
Fixpoint int_to_Z_rec (n : nat) (i : int) : Z :=
  match n with
  | O => 0
  | S k =>
      if (i =? 0)%uint63 then 0
      else (if is_even i then Z.double else Z.succ_double)
             (int_to_Z_rec k (i >> 1)%uint63)
  end.
Definition int_to_Z : int -> Z := int_to_Z_rec Uint63.size.

(** [float(z)] for a Python int; exact for [|z| < 2^53], which covers
    every array dimension. *)
Definition of_int (z : Z) : float :=
  if z <? 0 then PrimFloat.opp (PrimFloat.of_uint63 (Uint63.of_Z (- z)))
  else PrimFloat.of_uint63 (Uint63.of_Z z).

(** [a / b] on two Python ints: the correctly rounded quotient, which
    for operands below [2^53] is the IEEE division of the two exact
    conversions. *)
Definition truediv (a b : Z) : float := (of_int a / of_int b)%float.

(** [a * x] with [a] an int and [x] a float. *)
Definition mul_int (a : Z) (x : float) : float := (of_int a * x)%float.

(** [int(f)]: truncation toward zero; [None] stands for the
    [ValueError]/[OverflowError] on nan and infinities.  With
    [frshiftexp f = (r, e)], [f = r * 2^(e - 2101)] and
    [normfr_mantissa r = |r| * 2^53], so [|f| = mant * 2^(e - 2154)]. *)
Definition to_int (f : float) : option Z :=
  if (is_nan f || is_infinity f)%bool then None
  else
    let '(r, e) := frshiftexp f in
    let mant := normfr_mantissa r in
    let a := if (e <=? 2154)%uint63
             then int_to_Z (mant >> (2154 - e))%uint63
             else int_to_Z mant * 2 ^ int_to_Z (e - 2154)%uint63 in
    Some (if (f <? 0)%float then - a else a).

End PyFloat.

(** ** Image ingest: [validate_and_resize_image] *)

Section Resize.
Context `{Collaborators}.

(** [Image.fromarray(a).resize((w, h), LANCZOS)] back to an array.
    Pillow refuses an empty target size. *)
Definition pil_resize (a : ndarray) (new_width new_height : Z)
  : result ndarray :=
  if ((new_width <? 1) || (new_height <? 1))%bool
  then Raise (Exception "height and width must be > 0")
  else Ok {| height := new_height; width := new_width;
             pixels := lanczos a new_width new_height |}.

Definition validate_and_resize_image
    (image_array : ndarray) (max_dimension : Z) : result ndarray :=
  let height := image_array.(height) in
  let width := image_array.(width) in
  if Z.max height width >? max_dimension then
    let scale := PyFloat.truediv max_dimension (Z.max height width) in
    match PyFloat.to_int (PyFloat.mul_int height scale) with
    | None => Raise (Exception "cannot convert float to integer")
    | Some new_height =>
        match PyFloat.to_int (PyFloat.mul_int width scale) with
        | None => Raise (Exception "cannot convert float to integer")
        | Some new_width => pil_resize image_array new_width new_height
        end
    end
  else Ok image_array.

End Resize.

(** ** Exhaustive evaluation of the scaling arithmetic

    [int(s * (1024 / m))] evaluated in machine integers for every pair of
    sides [1 <= s <= m] in a range of longer sides [m]. *)

Module ScaleCheck.

Fixpoint forall_range (n : nat) (lo : Z) (P : Z -> bool) : bool :=
  match n with
  | O => true
  | S k => P lo && forall_range k (lo + 1) P
  end.

Fixpoint forall_int (n : nat) (i : int) (P : int -> bool) : bool :=
  match n with
  | O => true
  | S k => P i && forall_int k (i + 1)%uint63 P
  end.

(** The side [s] of an image whose longer side is [m], scaled by [c]:
    the truncated product [n] stays within one pixel below the exact
    value [1024 * s / m], does not vanish when the exact value is at
    least one pixel, and is 1023 or 1024 on the longer side itself. *)
Definition side_ok (c : float) (m s : int) : bool :=
  let p := (PrimFloat.of_uint63 s * c)%float in
  negb (is_nan p || is_infinity p) && negb (p <? 0)%float &&
  let '(r, e) := frshiftexp p in
  (e <=? 2154)%uint63 &&
  let n := (normfr_mantissa r >> (2154 - e))%uint63 in
  ((n <=? 1024) && (m * n <=? 1024 * s) && (1024 * s <=? m * n + m)
   && (if (s =? m) then 1023 <=? n else true)
   && (if (s =? m) && (m =? 4096) then 1024 <=? n else true)
   && (if (m <=? 1024 * s) then 1 <=? n else true))%uint63.

Definition row_ok (m : Z) : bool :=
  forall_int (Z.to_nat m) (Uint63.of_Z 1)
    (side_ok (PyFloat.truediv 1024 m) (Uint63.of_Z m)).

End ScaleCheck.

(** ** Paths and the file system *)

Definition startswith (s p : string) : bool := String.prefix p s.

Definition endswith (s suffix : string) : bool :=
  String.prefix (String.rev suffix) (String.rev s).

Fixpoint string_drop (n : nat) (s : string) : string :=
  match n, s with
  | O, _ => s
  | S k, String _ r => string_drop k r
  | S _, EmptyString => EmptyString
  end.

(** The part of [s] before its first ['/']. *)
Fixpoint first_segment (s : string) : string :=
  match s with
  | EmptyString => EmptyString
  | String c r => if Ascii.eqb c "/"%char then EmptyString
                  else String c (first_segment r)
  end.

(** [os.path.splitext(p)[0]], on the reversed name: the extension starts
    at the last ['.'] of the last path component, provided a character
    other than ['.'] precedes it within that component. *)
Fixpoint has_nondot_before_sep (r : string) : bool :=
  match r with
  | EmptyString => false
  | String c r' =>
      if Ascii.eqb c "/"%char then false
      else if Ascii.eqb c "."%char then has_nondot_before_sep r'
           else true
  end.

Fixpoint rev_strip_ext (r : string) : option string :=
  match r with
  | EmptyString => None
  | String c r' =>
      if Ascii.eqb c "/"%char then None
      else if Ascii.eqb c "."%char
           then (if has_nondot_before_sep r' then Some r' else None)
           else rev_strip_ext r'
  end.

Definition splitext_root (p : string) : string :=
  match rev_strip_ext (String.rev p) with
  | Some r => String.rev r
  | None => p
  end.

Section FileSystem.
Context `{Collaborators}.

(** [os.path.abspath], for names without [.] or [..] segments. *)
Definition abspath (p : string) : string :=
  if startswith p "/" then p else cwd +:+ "/" +:+ p.

(** [os.path.expanduser] *)
Definition expanduser (p : string) : string :=
  match p with
  | String c rest =>
      if (Ascii.eqb c "~"%char && (String.eqb rest "" || startswith rest "/"))%bool
      then home +:+ rest else p
  | EmptyString => p
  end.

Definition isfile (f : FS) (p : string) : bool :=
  negb (String.eqb p "") && bool_decide (is_Some (f !! abspath p)).

(** A directory is present when some file lies below it. *)
Definition isdir (f : FS) (p : string) : bool :=
  negb (String.eqb p "") &&
  existsb (fun k => startswith k (abspath p +:+ "/")) (map fst (map_to_list f)).

(** [os.path.exists] *)
Definition path_exists (f : FS) (p : string) : bool := isfile f p || isdir f p.

(** [os.path.basename] *)
Definition basename (p : string) : string :=
  String.rev (first_segment (String.rev p)).

(** [os.path.join(a, b)] *)
Definition path_join (a b : string) : string :=
  if startswith b "/" then b
  else if (String.eqb a "" || endswith a "/")%bool then a +:+ b
       else a +:+ "/" +:+ b.

(** [os.listdir]: the entries directly below [d] (order immaterial
    here; an entry may appear once per file below it).  It raises on a
    regular file ([NotADirectoryError]), on a missing path, and when the
    system refuses. *)
Definition listdir (f : FS) (d : string) : result (list string) :=
  if isfile f d then Raise (Exception ("Not a directory: " +:+ d))
  else if negb (isdir f d)
       then Raise (Exception ("No such file or directory: " +:+ d))
       else if os_refuses (ListDir (abspath d))
            then Raise (Exception ("Permission denied: " +:+ d))
            else
              let pre := abspath d +:+ "/" in
              Ok (omap (fun k =>
                          if startswith k pre
                          then Some (first_segment
                                       (string_drop (String.length pre) k))
                          else None)
                       (map fst (map_to_list f))).

(** [os.remove]: only a regular file can be removed, and only when the
    system lets it. *)
Definition os_remove (p : string) : M unit :=
  fun st =>
    if isfile st.(fs) p && negb (os_refuses (Unlink (abspath p)))
    then set_fs (delete (abspath p) st.(fs)) st
    else (st, Raise (Exception ("cannot remove " +:+ p))).

(** Where [shutil.copy2(src, dst)] writes: inside [dst] when that is an
    existing directory, under the name of the source. *)
Definition copy_target (f : FS) (src dst : string) : string :=
  if isdir f dst then path_join dst (basename src) else dst.

(** [shutil.copy2]: the source is a regular file, the target is not the
    source itself and not a directory, and the system lets the target be
    written.  (The directory of the target is taken to exist: in the one
    call here it is the directory of the source.) *)
Definition copy2 (src dst : string) : M unit :=
  fun st =>
    match st.(fs) !! abspath src with
    | Some bytes =>
        let target := copy_target st.(fs) src dst in
        if String.eqb src "" then (st, Raise (Exception "cannot copy"))
        else if String.eqb (abspath target) (abspath src)
        then (st, Raise (Exception "are the same file"))
        else if (isdir st.(fs) target
                 || os_refuses (WriteFile (abspath target)))%bool
        then (st, Raise (Exception ("cannot write " +:+ target)))
        else set_fs (<[abspath target := bytes]> st.(fs)) st
    | None => (st, Raise (Exception ("cannot copy " +:+ src)))
    end.

(** [try: m  except Exception: pass] *)
Definition ignore_errors (m : M unit) : M unit :=
  try_except m (fun _ => ret tt).

(** [for x in xs: body x] *)
Fixpoint for_each {A} (xs : list A) (body : A -> M unit) : M unit :=
  match xs with
  | [] => ret tt
  | x :: r => bind (body x) (fun _ => for_each r body)
  end.

End FileSystem.

(** ** ModelStore: validation, repair, and the recovering loader *)

Section ModelLifecycle.
Context `{Collaborators}.

(** Truthiness of an optional path ([None] and [''] are falsy). *)
Definition truthy (p : option string) : bool :=
  match p with
  | Some s => negb (String.eqb s "")
  | None => false
  end.

Definition validate_onnx_model (model_path : string) : M bool :=
  fun st =>
    if negb (path_exists st.(fs) model_path) then (st, Ok false)
    else
      (* the size is read and logged, nothing else is done with it *)
      match emit (OrtInferenceSession model_path) st with
      | (st', _) =>
          match st'.(fs) !! abspath model_path with
          | Some bytes => (st', Ok (ort_loads bytes))
          | None => (st', Ok false)
          end
      end.

Definition cache_paths : list string :=
  [ expanduser "~/.insightface/models";
    expanduser "~/.cache/insightface";
    "/root/.insightface/models" ].

(** "Create backup if file exists", then "Remove corrupted model". *)
Definition backup_and_remove (model_path : string) : M unit :=
  fun st =>
    if path_exists st.(fs) model_path then
      bind (ignore_errors (copy2 model_path (model_path +:+ ".backup")))
           (fun _ => os_remove model_path) st
    else (st, Ok tt).

(** "Clear InsightFace cache": the [.onnx] entries of each cache
    directory, one by one, errors of the removals ignored; a listing
    that fails is not caught here. *)
Definition clear_cache_dir (cache_path : string) : M unit :=
  fun st =>
    if path_exists st.(fs) cache_path then
      match listdir st.(fs) cache_path with
      | Ok entries =>
          for_each
            (filter (fun f => endswith f ".onnx" = true) entries)
            (fun model_file =>
               ignore_errors
                 (os_remove (cache_path +:+ "/" +:+ model_file))) st
      | Raise e => (st, Raise e)
      end
    else (st, Ok tt).

Definition clear_cache : M unit := for_each cache_paths clear_cache_dir.

(** The body of the outer [try] of [fix_corrupted_model]. *)
Definition fix_corrupted_model_try (model_path : string) : M bool :=
  bind (backup_and_remove model_path)
       (fun _ => bind clear_cache (fun _ => ret true)).

Definition fix_corrupted_model (model_path : string) : M bool :=
  try_except (fix_corrupted_model_try model_path) (fun _ => ret false).

(** The candidate locations of a model file, in probing order. *)
Definition possible_paths (model_path : string) : list string :=
  [ model_path;
    abspath model_path;
    expanduser ("~/.insightface/models/" +:+ model_path);
    expanduser ("/root/.insightface/models/" +:+ model_path) ].

(** The probing loop: the first candidate that exists. *)
Definition locate (f : FS) (model_path : string) : option string :=
  find (fun path => path_exists f path) (possible_paths model_path).

(** "First, validate the model if it exists": the state, the local
    [local_model_path] afterwards, and whether
    ["Failed to fix corrupted model"] was raised. *)
Definition validate_stage (local_model_path : option string)
  : State -> State * option string * bool :=
  fun st =>
    if truthy local_model_path
       && path_exists st.(fs) (default "" local_model_path)
    then
      match validate_onnx_model (default "" local_model_path) st with
      | (st', Ok true) => (st', local_model_path, false)
      | (st', _) =>
          match fix_corrupted_model (default "" local_model_path) st' with
          | (st'', Ok true) => (st'', None, false)
          | (st'', _) => (st'', local_model_path, true)
          end
      end
    else (st, local_model_path, false).

(** "Load the model": from the file found, or by download under the
    name without its extension; then the check that a model object
    came back. *)
Definition load_stage (model_path : string) (local_model_path : option string)
  : State -> State * option string * result SwapperModel :=
  fun st =>
    let '(st', local_model_path, outcome) :=
      if truthy local_model_path
         && path_exists st.(fs) (default "" local_model_path)
      then
        let p := default "" local_model_path in
        let st1 := (emit (ModelZooGetModel p false) st).1 in
        let '(f, o) := model_zoo_get_model st1.(log) st1.(fs) p false in
        ((set_fs f st1).1,
         local_model_path,
         match o with
         | Loaded => Ok (Some {| loaded_from := p |})
         | ReturnedNone => Ok None
         | GetModelRaised m => Raise (Exception m)
         end)
      else
        let model_name := splitext_root model_path in
        let st1 := (emit (ModelZooGetModel model_name true) st).1 in
        let '(f, o) :=
          model_zoo_get_model st1.(log) st1.(fs) model_name true in
        let downloaded :=
          Some (expanduser ("~/.insightface/models/" +:+ model_path)) in
        match o with
        | Loaded =>
            ((set_fs f st1).1, downloaded,
             Ok (Some {| loaded_from := model_name |}))
        | ReturnedNone => ((set_fs f st1).1, downloaded, Ok None)
        | GetModelRaised m =>
            ((set_fs f st1).1, local_model_path, Raise (Exception m))
        end in
    match outcome with
    | Raise e => (st', local_model_path, Raise e)
    | Ok None =>
        (st', local_model_path,
         Raise (Exception "Model loading returned None"))
    | Ok (Some model) => (st', local_model_path, Ok model)
    end.

(** One pass through the [try] block of the retry loop.  Besides the
    outcome it yields the value of the local [local_model_path] at the
    point where the block was left, which the handler reads. *)
Definition load_attempt (model_path : string) (attempt max_retries : Z)
  : State -> State * option string * result SwapperModel :=
  fun st0 =>
    let st1 := (emit (LoadAttempt model_path (attempt + 1) max_retries) st0).1 in
    let '(st2, local_model_path, failed) :=
      validate_stage (locate st1.(fs) model_path) st1 in
    if failed
    then (st2, local_model_path,
          Raise (Exception "Failed to fix corrupted model"))
    else load_stage model_path local_model_path st2.

(** [for attempt in range(max_retries)], from [attempt] on, with
    [remaining] iterations left.  Falling off the loop returns the
    initial [None]. *)
Fixpoint load_swapper_loop (model_path : string) (max_retries : Z)
    (remaining : nat) (attempt : Z) : M (option SwapperModel) :=
  match remaining with
  | O => ret None
  | S k =>
      fun st =>
        match load_attempt model_path attempt max_retries st with
        | (st', _, Ok model) => (st', Ok (Some model))
        | (st', local_model_path, Raise e) =>
            if attempt <? max_retries - 1 then
              (* the result of the repair is not looked at *)
              let st'' :=
                (fix_corrupted_model
                   (if truthy local_model_path
                    then default "" local_model_path else model_path)
                   st').1 in
              load_swapper_loop model_path max_retries k (attempt + 1) st''
            else
              (st', Raise (Exception
                 ("Failed to load swapper model after "
                  +:+ pretty max_retries +:+ " attempts: " +:+ str_exn e)))
        end
  end.

Definition load_swapper_model_with_recovery
    (model_path : string) (max_retries : Z) : M (option SwapperModel) :=
  load_swapper_loop model_path max_retries (Z.to_nat max_retries) 0.

End ModelLifecycle.

(** ** EngineCache: [get_cached_models] behind [lru_cache], [prepare_app] *)

(** The handle [FaceAnalysis(name='buffalo_l')] prepared with
    [ctx_id=0, det_size=(640, 640)]. *)
Definition buffalo_l : FaceAnalysisApp :=
  {| fa_name := "buffalo_l"; fa_ctx_id := 0; fa_det_size := (640, 640) |}.

Section EngineCache.
Context `{Collaborators}.

Definition model_paths : list string :=
  [ "inswapper_128.fp16.onnx"; "inswapper_128.onnx" ].

(** The [for model_path in model_paths] loop: the first variant whose
    loader returns wins (the loop is left by [break]); a variant whose
    loader raises is skipped. *)
Fixpoint load_first_variant (paths : list string) : M (option SwapperModel) :=
  match paths with
  | [] => ret None
  | model_path :: rest =>
      fun st =>
        match load_swapper_model_with_recovery model_path 3 st with
        | (st', Ok swapper) => (st', Ok swapper)
        | (st', Raise _) => load_first_variant rest st'
        end
  end.

(** The function under the decorator. *)
Definition get_cached_models_body : M (FaceAnalysisApp * SwapperModel) :=
  fun st0 =>
    let st1 := (emit FaceAnalysisPrepare st0).1 in
    match face_analysis_prepare st1.(log) st1.(fs) with
    | (f, Some msg) => ((set_fs f st1).1, Raise (Exception msg))
    | (f, None) =>
        let app := buffalo_l in
        match load_first_variant model_paths (set_fs f st1).1 with
        | (st2, Ok (Some swapper)) => (st2, Ok (app, swapper))
        | (st2, Ok None) =>
            (st2, Raise (Exception "Failed to load any swapper model variant"))
        | (st2, Raise e) => (st2, Raise e)
        end
    end.

Definition set_lru (v : option (FaceAnalysisApp * SwapperModel)) : M unit :=
  fun st => ({| fs := st.(fs); log := st.(log); lru := v;
                face_analysis_app := st.(face_analysis_app);
                swapper_model := st.(swapper_model) |}, Ok tt).

(** [@lru_cache(maxsize=1)] on a function without arguments: a hit
    returns the stored value; a miss runs the function and stores its
    value only if it returns. *)
Definition get_cached_models : M (FaceAnalysisApp * SwapperModel) :=
  fun st =>
    match st.(lru) with
    | Some bundle => (st, Ok bundle)
    | None =>
        match get_cached_models_body st with
        | (st', Ok bundle) => ((set_lru (Some bundle) st').1, Ok bundle)
        | (st', Raise e) => (st', Raise e)
        end
    end.

(** [get_cached_models.cache_clear()] *)
Definition cache_clear : M unit := set_lru None.

Definition set_globals (a : option FaceAnalysisApp) (s : option SwapperModel)
  : M unit :=
  fun st => ({| fs := st.(fs); log := st.(log); lru := st.(lru);
                face_analysis_app := a; swapper_model := s |}, Ok tt).

Definition prepare_app : M (FaceAnalysisApp * SwapperModel) :=
  fun st =>
    match get_cached_models st with
    | (st', Ok (app, swapper)) =>
        ((set_globals (Some app) (Some swapper) st').1, Ok (app, swapper))
    | (st', Raise e) => (st', Raise e)
    end.

End EngineCache.

(** ** FaceSelector *)

(** [sorted] is stable; on keys ordered by [<] every stable sort returns
    the same list, here computed by insertion from the right. *)
Fixpoint insert_face (x : Face) (l : list Face) : list Face :=
  match l with
  | [] => [x]
  | y :: r => if Qlt_le_dec (bbox0 y) (bbox0 x)
              then y :: insert_face x r
              else x :: y :: r
  end.

Definition sort_faces (faces : list Face) : list Face :=
  foldr insert_face [] faces.

(** [a] is not to the right of [b]. *)
Definition left_of (a b : Face) : Prop := (bbox0 a <= bbox0 b)%Q.

Definition face_index_message (have requested : Z) : string :=
  "The image includes only " +:+ pretty have
  +:+ " faces, however, you asked for face " +:+ pretty requested.

Definition get_face (faces : list Face) (face_id : Z) : result Face :=
  if (Z.of_nat (length faces) <? face_id) || (face_id <? 1)
  then Raise (HTTPException 400
                (face_index_message (Z.of_nat (length faces)) face_id))
  else
    match faces !! Z.to_nat (face_id - 1) with
    | Some face => Ok face
    | None =>
        (* [IndexError], turned into a 500 by the last handler *)
        Raise (HTTPException 500
                 ("An error occurred: " +:+ "list index out of range"))
    end.

(** ** Reading and printing numbers *)

(** The characters [int()] skips at both ends of a string: the ASCII
    whitespace (tab to carriage return, and the blank), and U+0085 and
    U+00A0, which it turns into blanks first.  The separators
    U+001C..U+001F are not among them: they are below 127 and stay as
    they are. *)
Definition is_space (c : ascii) : bool :=
  let n := nat_of_ascii c in
  ((9 <=? n) && (n <=? 13) || (n =? 32) || (n =? 133) || (n =? 160))%nat.

Definition digit_value (c : ascii) : option Z :=
  let n := nat_of_ascii c in
  if ((48 <=? n) && (n <=? 57))%nat then Some (Z.of_nat n - 48) else None.

Fixpoint lstrip (s : string) : string :=
  match s with
  | String c r => if is_space c then lstrip r else s
  | EmptyString => s
  end.

Definition strip (s : string) : string :=
  String.rev (lstrip (String.rev (lstrip s))).

(** Digits with single underscores between them; [acc] is the value so
    far and [after_digit] tells whether the previous character was a
    digit. *)
Fixpoint parse_digits (s : string) (acc : Z) (after_digit : bool) : option Z :=
  match s with
  | EmptyString => if after_digit then Some acc else None
  | String c r =>
      match digit_value c with
      | Some d => parse_digits r (10 * acc + d) true
      | None =>
          if (Ascii.eqb c "_"%char && after_digit)%bool
          then parse_digits r acc false
          else None
      end
  end.

(** The number of decimal digits in a string. *)
Fixpoint count_digits (s : string) : nat :=
  match s with
  | EmptyString => 0
  | String c r =>
      match digit_value c with
      | Some _ => S (count_digits r)
      | None => count_digits r
      end
  end.

(** [int(s)] for a string in base ten; [None] is [ValueError], which is
    also what a numeral of more than 4300 digits gets (the default
    [int_max_str_digits] of CPython 3.11). *)
Definition py_int (s : string) : option Z :=
  if (4300 <? count_digits s)%nat then None
  else
    match strip s with
    | String c r =>
        if Ascii.eqb c "-"%char then Z.opp <$> parse_digits r 0 false
        else if Ascii.eqb c "+"%char then parse_digits r 0 false
             else parse_digits (String c r) 0 false
    | EmptyString => None
    end.

(** A non-negative int rounded to 53 significant bits, ties to even:
    the value of [float(n)]. *)
Definition round53 (n : Z) : Z :=
  let k := Z.log2 n - 52 in
  if k <=? 0 then n
  else
    let q := Z.shiftr n k in
    let r := n - Z.shiftl q k in
    let half := Z.shiftl 1 (k - 1) in
    let q' := if (half <? r) || ((r =? half) && Z.odd q) then q + 1 else q in
    Z.shiftl q' k.

Definition two_digits (n : Z) : string :=
  if n <? 10 then "0" +:+ pretty n else pretty n.

(** [f"{n / (1024 * 1024):.2f}"] for [n >= 0] below the float range:
    the quotient is a double (division by a power of two is exact after
    the conversion of [n]), printed with two decimals, ties to even. *)
Definition format_mb_2f (n : Z) : string :=
  let x := 100 * round53 n in
  let q := x / 1048576 in
  let r := x mod 1048576 in
  let cents := if (524288 <? r) || ((r =? 524288) && Z.odd q)
               then q + 1 else q in
  pretty (cents / 100) +:+ "." +:+ two_digits (cents mod 100).

(** The least int whose quotient by [2^20] no longer fits a double. *)
Definition truediv_overflow_bound : Z := (2 ^ 1024 - 2 ^ 970) * 2 ^ 20.

(** ** ImageIngest: [download_image] *)

Section Ingest.
Context `{Collaborators}.

(** [response.raise_for_status()]: an [HTTPError], a
    [RequestException], on 4xx and 5xx (its text is abbreviated). *)
Definition raise_for_status (r : Response) : result unit :=
  if (400 <=? r.(status)) && (r.(status) <? 600)
  then Raise (RequestException
                (pretty r.(status) +:+ " Error"))
  else Ok tt.

(** The content-length check.  [size_mb > 10] on the correctly rounded
    quotient holds exactly when the int exceeds [10 * 2^20]. *)
Definition check_content_length (r : Response) : result unit :=
  match r.(content_length) with
  | None => Ok tt
  | Some content_length =>
      if String.eqb content_length "" then Ok tt
      else
        match py_int content_length with
        | None =>
            Raise (Exception
                     ("invalid literal for int() with base 10: '"
                      +:+ content_length +:+ "'"))
        | Some n =>
            if truediv_overflow_bound <=? Z.abs n
            then Raise (Exception
                          "integer division result too large for a float")
            else if 10 * (1024 * 1024) <? n
                 then Raise (HTTPException 413
                               ("Image too large: " +:+ format_mb_2f n
                                +:+ " MB (max 10MB)"))
                 else Ok tt
        end
  end.

(** The body of the [try] of [download_image]. *)
Definition download_image_try (url : string) : M ndarray :=
  (response <- (fun st => (st, requests_get st.(log) url)) ;;
   emit (RequestsGet url (String.length response.(content))) ;;;
   lift (raise_for_status response) ;;;
   lift (check_content_length response) ;;;
   emit (ImageOpen (String.length response.(content))) ;;;
   image <- lift (image_open response.(content)) ;;
   let image_array :=
     if String.eqb image.(mode) "RGB" then image.(im)
     else {| height := image.(im).(height); width := image.(im).(width);
             pixels := convert_rgb image |} in
   lift (validate_and_resize_image image_array 1024))%py.

Definition download_image (url : string) : M ndarray :=
  try_except (download_image_try url)
    (fun e =>
       match e with
       | RequestException _ =>
           raise (HTTPException 400
                    ("Failed to download image from " +:+ url +:+ ": "
                     +:+ str_exn e))
       | _ =>
           raise (HTTPException 500
                    ("Error processing image from " +:+ url +:+ ": "
                     +:+ str_exn e))
       end).

Definition image_to_base64 (image_array : ndarray) : M string :=
  try_except (lift (png_base64 image_array))
    (fun e => raise (HTTPException 500
                       ("Error converting image to base64: " +:+ str_exn e))).

End Ingest.

(** ** SwapPipeline and the endpoints *)

(** Response models of the serverless envelope. *)
Record RunPodInput : Type := {
  source_url : string;
  target_url : string;
  source_index : Z;
  target_index : Z
}.
Record RunPodRequest : Type := { input : RunPodInput }.
Record RunPodOutput : Type := {
  success : bool;
  image_base64 : option string;
  message : string
}.
Record RunPodResponse : Type := { output : RunPodOutput }.

(** The JSON object returned by [/fix-model]. *)
Record FixModelReply : Type := { fix_success : bool; fix_message : string }.

(** The status line the framework sends for the way a handler ended: a
    returned value is a 200, an [HTTPException] carries its own status,
    anything else is a 500. *)
Definition transport_status {A} (r : result A) : Z :=
  match r with
  | Ok _ => 200
  | Raise (HTTPException sc _) => sc
  | Raise _ => 500
  end.

Section Pipeline.
Context `{Collaborators}.

(** [face_analysis_app.get(image)] *)
Definition detect (image : ndarray) : M (list Face) :=
  (emit (FaceAnalysisGet image) ;;;
   fun st => (st, face_analysis_get st.(log) image))%py.

(** [swapper_model.get(target_image, target_face, source_face,
    paste_back=True)] *)
Definition swap (model : SwapperModel) (target_image : ndarray)
    (target_face source_face : Face) : M ndarray :=
  (emit (SwapperGet target_image) ;;;
   fun st => (st, swapper_get st.(log) model target_image
                    target_face source_face))%py.

(** The [try] block of [perform_face_swap_logic]; its handler collects
    garbage and re-raises, which changes nothing here. *)
Definition perform_face_swap_logic
    (source_url target_url : string) (source_index target_index : Z)
  : M string :=
  fun st =>
    match st.(face_analysis_app), st.(swapper_model) with
    | Some _, Some model =>
        (source_image <- download_image source_url ;;
         target_image <- download_image target_url ;;
         detected_source <- detect source_image ;;
         let source_faces := sort_faces detected_source in
         detected_target <- detect target_image ;;
         let target_faces := sort_faces detected_target in
         source_face <- lift (get_face source_faces source_index) ;;
         target_face <- lift (get_face target_faces target_index) ;;
         result_image <- swap model target_image target_face source_face ;;
         image_to_base64 result_image)%py st
    | _, _ => (st, Raise (HTTPException 500 "Models not initialized"))
    end.

(** [POST /runsync] *)
Definition runsync_face_swap (request : RunPodRequest) : M RunPodResponse :=
  fun st =>
    let input_data := request.(input) in
    match perform_face_swap_logic input_data.(source_url)
            input_data.(target_url) input_data.(source_index)
            input_data.(target_index) st with
    | (st', Ok result_base64) =>
        (st', Ok {| output :=
                      {| success := true;
                         image_base64 := Some result_base64;
                         message := "Face swap completed successfully" |} |})
    | (st', Raise (HTTPException _ detail)) =>
        (st', Ok {| output := {| success := false; image_base64 := None;
                                 message := detail |} |})
    | (st', Raise e) =>
        (st', Ok {| output :=
                      {| success := false; image_base64 := None;
                         message := "Face swap failed: " +:+ str_exn e |} |})
    end.

(** [POST /swap] *)
Definition swap_faces (request : RunPodInput) : M (bool * string * string) :=
  fun st =>
    match perform_face_swap_logic request.(source_url) request.(target_url)
            request.(source_index) request.(target_index) st with
    | (st', Ok result_base64) =>
        (st', Ok (true, result_base64, "Face swap completed successfully"))
    | (st', Raise (HTTPException sc detail)) =>
        (st', Raise (HTTPException sc detail))
    | (st', Raise e) =>
        (st', Raise (HTTPException 500 ("Face swap failed: " +:+ str_exn e)))
    end.

(** [POST /fix-model] *)
Definition fix_model_endpoint : M FixModelReply :=
  fun st =>
    let model_path := "inswapper_128.onnx" in
    match fix_corrupted_model model_path st with
    | (st', Ok true) =>
        let st'' := (cache_clear st').1 in
        ((set_globals None None st'').1,
         Ok {| fix_success := true;
               fix_message := "Model fix completed. Restart the application to reload models." |})
    | (st', Ok false) =>
        (st', Ok {| fix_success := false; fix_message := "Model fix failed" |})
    | (st', Raise e) =>
        (st', Ok {| fix_success := false;
                    fix_message := "Model fix failed: " +:+ str_exn e |})
    end.

(** The start-up hook. *)
Definition startup_event : M unit :=
  (prepare_app ;;; ret tt)%py.

End Pipeline.

(** ** Reading the log *)

Definition is_load_attempt (model_path : string) (e : Event) : bool :=
  match e with
  | LoadAttempt p _ _ => String.eqb p model_path
  | _ => false
  end.

(** How many passes through the retry loop were made for a variant. *)
Definition attempts (model_path : string) (l : list Event) : nat :=
  length (filter (fun e => is_load_attempt model_path e = true) l).

Definition is_locator_call (e : Event) : bool :=
  match e with FaceAnalysisGet _ => true | _ => false end.
Definition is_swapper_call (e : Event) : bool :=
  match e with SwapperGet _ => true | _ => false end.
Definition is_engine_init (e : Event) : bool :=
  match e with FaceAnalysisPrepare => true | _ => false end.
Definition is_structural_load (e : Event) : bool :=
  match e with OrtInferenceSession _ => true | _ => false end.
Definition is_image_decode (e : Event) : bool :=
  match e with ImageOpen _ => true | _ => false end.
Definition is_body_download (e : Event) : bool :=
  match e with RequestsGet _ _ => true | _ => false end.

Definition count (p : Event -> bool) (l : list Event) : nat :=
  length (filter (fun e => p e = true) l).

(** ** A concrete environment

    Stand-ins for the external libraries, used to run the model on
    concrete requests.  The reduced-precision swapper never loads, the
    full-precision one always does; the URL ["big"] answers with a
    declared length of 20 MiB. *)

Definition demo_faces : list Face :=
  [ {| bbox := (30#1, 5#1, 40#1, 20#1); payload := 1 |};
    {| bbox := (10#1, 5#1, 20#1, 20#1); payload := 2 |};
    {| bbox := (20#1, 5#1, 28#1, 20#1); payload := 3 |} ].

Definition demo_image : ndarray :=
  {| height := 80; width := 100; pixels := [] |}.

Definition demo_get_model (hist : list Event) (f : FS) (name : string)
    (download : bool) : FS * get_model_outcome :=
  if endswith name "fp16" || endswith name "fp16.onnx"
  then (f, GetModelRaised "INVALID_PROTOBUF")
  else (f, Loaded).

Definition demo_requests_get (hist : list Event) (url : string)
  : result Response :=
  if String.eqb url "big"
  then Ok {| status := 200; content_length := Some "20971520";
             content := "png" |}
  else Ok {| status := 200; content_length := None; content := "png" |}.

#[local] Instance demo : Collaborators := {|
  cwd := "/app";
  home := "/root";
  os_refuses := fun _ => false;
  ort_loads := fun bytes => negb (String.eqb bytes "");
  model_zoo_get_model := demo_get_model;
  face_analysis_prepare := fun _ f => (f, None);
  face_analysis_get := fun _ _ => Ok demo_faces;
  swapper_get := fun _ _ target _ _ => Ok target;
  requests_get := demo_requests_get;
  image_open := fun _ => Ok {| mode := "RGB"; im := demo_image |};
  convert_rgb := fun _ => [];
  lanczos := fun _ _ _ => [];
  png_base64 := fun _ => Ok "iVBORw0KGgo=";
  http_exception_str := fun sc d => pretty sc +:+ ": " +:+ d
|}.

(** The same environment with a locator whose first construction fails. *)
Definition flaky : Collaborators := {|
  cwd := "/app";
  home := "/root";
  os_refuses := fun _ => false;
  ort_loads := fun bytes => negb (String.eqb bytes "");
  model_zoo_get_model := demo_get_model;
  face_analysis_prepare := fun hist f =>
    if (count is_engine_init hist <=? 1)%nat
    then (f, Some "download of buffalo_l failed") else (f, None);
  face_analysis_get := fun _ _ => Ok demo_faces;
  swapper_get := fun _ _ target _ _ => Ok target;
  requests_get := demo_requests_get;
  image_open := fun _ => Ok {| mode := "RGB"; im := demo_image |};
  convert_rgb := fun _ => [];
  lanczos := fun _ _ _ => [];
  png_base64 := fun _ => Ok "iVBORw0KGgo=";
  http_exception_str := fun sc d => pretty sc +:+ ": " +:+ d
|}.

(** A freshly started process with nothing on disk. *)
Definition fresh : State :=
  {| fs := ∅; log := []; lru := None;
     face_analysis_app := None; swapper_model := None |}.

(** A process whose only model file is an empty
    [inswapper_128.onnx] in the working directory. *)
Definition empty_model_on_disk : State :=
  {| fs := {[ "/app/inswapper_128.onnx" := "" ]}; log := []; lru := None;
     face_analysis_app := None; swapper_model := None |}.

Definition image_of (h w : Z) : ndarray :=
  {| height := h; width := w; pixels := [] |}.

(** The state with some calls appended to its log. *)
Definition logged (st : State) (evs : list Event) : State :=
  {| fs := st.(fs); log := st.(log) ++ evs; lru := st.(lru);
     face_analysis_app := st.(face_analysis_app);
     swapper_model := st.(swapper_model) |}.

(** The message [/runsync] reports for a failure of the pipeline. *)
Definition failure_message `{Collaborators} (e : exn) : string :=
  match e with
  | HTTPException _ detail => detail
  | _ => "Face swap failed: " +:+ str_exn e
  end.

(** A [/runsync] request. *)
Definition demo_request (url : string) (i j : Z) : RunPodRequest :=
  {| input := {| source_url := url; target_url := "target";
                 source_index := i; target_index := j |} |}.

(** ** Frames

    [ext allowed st st']: from [st] to [st'] the cache slot and the
    globals are untouched and the log grew by calls that [allowed]
    allows. *)
Definition ext (allowed : Event -> bool) (st st' : State) : Prop :=
  st'.(lru) = st.(lru)
  /\ st'.(face_analysis_app) = st.(face_analysis_app)
  /\ st'.(swapper_model) = st.(swapper_model)
  /\ exists evs, st'.(log) = st.(log) ++ evs
                 /\ Forall (fun e => allowed e = true) evs.

Definition keeps (allowed : Event -> bool) {A} (m : M A) : Prop :=
  forall st, ext allowed st (m st).1.

Definition no_event (e : Event) : bool := false.

Definition is_get_model (e : Event) : bool :=
  match e with ModelZooGetModel _ _ => true | _ => false end.

(** Calls made inside one pass of the retry loop, after its first line. *)
Definition store_event (e : Event) : bool :=
  is_structural_load e || is_get_model e.

(** Calls made while loading the variants in [paths]. *)
Definition loader_event (paths : list string) (e : Event) : bool :=
  store_event e || existsb (fun p => is_load_attempt p e) paths.

(** Calls made by the image fetch. *)
Definition ingest_event (e : Event) : bool :=
  is_body_download e || is_image_decode e.

(** A process that ran [prepare_app] at start-up in the concrete
    environment. *)
Definition ready : State := Eval vm_compute in (prepare_app fresh).1.

(** States of the concrete environment with the flaky locator: after the
    first call of [get_cached_models], and after the second. *)
Definition after_failed_init : State :=
  Eval vm_compute in (get_cached_models (H := flaky) fresh).1.
Definition after_second_init : State :=
  Eval vm_compute in (get_cached_models (H := flaky) after_failed_init).1.

(** Calls other than one to the swapper engine. *)
Definition not_swapper_call (e : Event) : bool := negb (is_swapper_call e).



(** ** Health endpoint *)

(** The JSON object returned by [/health]. *)
Record HealthReply : Type := {
  health_status : string;
  face_analysis_ready : bool;
  swapper_model_ready : bool;
  model_file_valid : bool;
  active_model : option string;
  memory_usage_mb : float;
  insightface_version : string
}.

Section Health.
Context `{Collaborators}.

(** The inner loop of [/health]: the first location that exists and
    validates. *)
Fixpoint first_valid_path (paths : list string) : M (option string) :=
  match paths with
  | [] => ret None
  | path :: rest =>
      fun st =>
        if path_exists st.(fs) path then
          match validate_onnx_model path st with
          | (st', Ok true) => (st', Ok (Some path))
          | (st', Ok false) => first_valid_path rest st'
          | (st', Raise e) => (st', Raise e)
          end
        else first_valid_path rest st
  end.

(** The outer loop: variants in order, left at the first valid file. *)
Fixpoint first_valid_model (variants : list string) : M (option string) :=
  match variants with
  | [] => ret None
  | model_path :: rest =>
      fun st =>
        match first_valid_path (possible_paths model_path) st with
        | (st', Ok (Some path)) => (st', Ok (Some path))
        | (st', Ok None) => first_valid_model rest st'
        | (st', Raise e) => (st', Raise e)
        end
  end.

(** [GET /health].  The resident memory (rounded to two decimals) and the
    InsightFace version are read from the environment; they are the two
    arguments. *)
Definition health_check (memory_mb : float) (version : string)
  : M HealthReply :=
  fun st =>
    let is_healthy :=
      bool_decide (is_Some st.(face_analysis_app))
      && bool_decide (is_Some st.(swapper_model)) in
    match first_valid_model model_paths st with
    | (st', Ok active) =>
        (st', Ok {| health_status :=
                      if is_healthy then "healthy" else "unhealthy";
                    face_analysis_ready :=
                      bool_decide (is_Some st'.(face_analysis_app));
                    swapper_model_ready :=
                      bool_decide (is_Some st'.(swapper_model));
                    model_file_valid := bool_decide (is_Some active);
                    active_model := active;
                    memory_usage_mb := memory_mb;
                    insightface_version := version |})
    | (st', Raise e) => (st', Raise e)
    end.

End Health.

(** ** The serverless worker ([runpod_handler.py]) *)

(** The [input] object of an event, as far as the handler reads it: each
    key may be missing. *)
Record HandlerInput : Type := {
  in_source_url : option string;
  in_target_url : option string;
  in_source_index : option Z;
  in_target_index : option Z
}.

(** The dictionary the handler returns; a key that is not set is [None]. *)
Record HandlerReply : Type := {
  reply_success : bool;
  reply_error : option string;
  reply_image_base64 : option string;
  reply_message : option string
}.

Section Worker.
Context `{Collaborators}.

(** [handler(event)], with [event.get('input', {})] given as an option. *)
Definition handler (event_input : option HandlerInput) : M HandlerReply :=
  fun st =>
    let input_data :=
      default {| in_source_url := None; in_target_url := None;
                 in_source_index := None; in_target_index := None |}
              event_input in
    match input_data.(in_source_url) with
    | None =>
        (st, Ok {| reply_success := false;
                   reply_error :=
                     Some "Missing required parameter: source_url";
                   reply_image_base64 := None; reply_message := None |})
    | Some source_url =>
        match input_data.(in_target_url) with
        | None =>
            (st, Ok {| reply_success := false;
                       reply_error :=
                         Some "Missing required parameter: target_url";
                       reply_image_base64 := None; reply_message := None |})
        | Some target_url =>
            let source_index := default 1 input_data.(in_source_index) in
            let target_index := default 1 input_data.(in_target_index) in
            match perform_face_swap_logic source_url target_url
                    source_index target_index st with
            | (st', Ok result_base64) =>
                (st', Ok {| reply_success := true; reply_error := None;
                            reply_image_base64 := Some result_base64;
                            reply_message :=
                              Some "Face swap completed successfully" |})
            | (st', Raise e) =>
                (st', Ok {| reply_success := false;
                            reply_error := Some (str_exn e);
                            reply_image_base64 := None;
                            reply_message :=
                              Some ("Face swap failed: " +:+ str_exn e) |})
            end
        end
    end.

(** [initialize()] *)
Definition initialize : M bool :=
  fun st =>
    match prepare_app st with
    | (st', Ok _) => (st', Ok true)
    | (st', Raise _) => (st', Ok false)
    end.

End Worker.

(** Faces whose left edge is [k]. *)
Definition at_left (k : Q) (x : Face) : bool := Qeq_bool (bbox0 x) k.


(** Whether the HTTP exchange itself failed: [requests.get] raised one of
    its own exceptions, or the status is one [raise_for_status] refuses. *)
Definition request_failed `{Collaborators} (url : string) (st : State) : bool :=
  match requests_get st.(log) url with
  | Raise (RequestException _) => true
  | Raise _ => false
  | Ok response => (400 <=? response.(status)) && (response.(status) <? 600)
  end.

(** A process with a model file ONNX Runtime accepts in the working
    directory. *)
Definition valid_model_on_disk : State :=
  {| fs := {[ "/app/inswapper_128.onnx" := "onnx" ]}; log := []; lru := None;
     face_analysis_app := None; swapper_model := None |}.

(** [p] holds a file that ONNX Runtime loads. *)
Definition valid_at `{Collaborators} (st : State) (p : string) : Prop :=
  path_exists st.(fs) p = true
  /\ exists bytes, st.(fs) !! abspath p = Some bytes /\ ort_loads bytes = true.

(** The states of a request for faces 5 and 1 in the concrete
    environment: after each fetch and each detection. *)
Definition fetched_source : State :=
  Eval vm_compute in (download_image "source" ready).1.
Definition fetched_target : State :=
  Eval vm_compute in (download_image "target" fetched_source).1.
Definition scanned_source : State :=
  Eval vm_compute in (detect demo_image fetched_target).1.
Definition scanned_target : State :=
  Eval vm_compute in (detect demo_image scanned_source).1.

(** Calls a request makes: fetching and decoding the two images, the
    locator, the swapper. *)
Definition request_event (e : Event) : bool :=
  ingest_event e || is_locator_call e || is_swapper_call e.

(** The [RunPodInput] model applied to the [input] object of an event:
    the two addresses are required, an index that is missing is 1. *)
Definition parse_input (input_data : HandlerInput) : option RunPodRequest :=
  match input_data.(in_source_url), input_data.(in_target_url) with
  | Some source, Some target =>
      Some {| input :=
                {| source_url := source; target_url := target;
                   source_index := default 1 input_data.(in_source_index);
                   target_index := default 1 input_data.(in_target_index) |} |}
  | _, _ => None
  end.


(** * Properties *)

(** ** Machine integers and the exhaustive check *)

Module ScaleFacts.
Import PyFloat ScaleCheck.

Lemma to_Z_rec_zero n : to_Z_rec n 0%uint63 = 0.
Proof.
  induction n as [|n IH]; simpl; [reflexivity|].
  change (0 >> 1)%uint63 with 0%uint63.
  change (is_even 0) with true. cbv iota. now rewrite IH.
Qed.

Lemma int_to_Z_rec_spec n i : int_to_Z_rec n i = to_Z_rec n i.
Proof.
  revert i; induction n as [|n IH]; intros i; simpl; [reflexivity|].
  destruct (i =? 0)%uint63 eqn:E.
  - apply eqb_correct in E. subst i.
    change (0 >> 1)%uint63 with 0%uint63.
    change (is_even 0) with true. cbv iota. now rewrite to_Z_rec_zero.
  - now rewrite IH.
Qed.

Lemma int_to_Z_spec i : int_to_Z i = Uint63.to_Z i.
Proof. apply int_to_Z_rec_spec. Qed.

Lemma to_Z_of_Z_small z : 0 <= z < 2 ^ 62 -> Uint63.to_Z (Uint63.of_Z z) = z.
Proof.
  intros Hz. rewrite of_Z_spec. apply Z.mod_small.
  change wB with (2 ^ 63). lia.
Qed.

Lemma of_Z_succ z : (Uint63.of_Z z + 1)%uint63 = Uint63.of_Z (z + 1).
Proof.
  apply to_Z_inj. rewrite add_spec, !of_Z_spec.
  change (Uint63.to_Z 1) with 1.
  now rewrite Zplus_mod_idemp_l.
Qed.

Lemma forall_range_spec n lo P :
  forall_range n lo P = true ->
  forall z, lo <= z < lo + Z.of_nat n -> P z = true.
Proof.
  revert lo; induction n as [|n IH]; intros lo Hall z Hz; [lia|].
  simpl in Hall. apply andb_true_iff in Hall as [Hlo Hrest].
  destruct (Z.eq_dec z lo) as [->|Hne]; [exact Hlo|].
  apply (IH (lo + 1)); [exact Hrest | lia].
Qed.

Lemma forall_int_spec n lo P :
  forall_int n (Uint63.of_Z lo) P = true ->
  forall z, lo <= z < lo + Z.of_nat n -> P (Uint63.of_Z z) = true.
Proof.
  revert lo; induction n as [|n IH]; intros lo Hall z Hz; [lia|].
  simpl in Hall. apply andb_true_iff in Hall as [Hlo Hrest].
  destruct (Z.eq_dec z lo) as [->|Hne]; [exact Hlo|].
  rewrite of_Z_succ in Hrest. apply (IH (lo + 1)); [exact Hrest | lia].
Qed.

(** What one successful evaluation of [side_ok] says about the model
    function [to_int (mul_int s (truediv 1024 m))]. *)
Lemma side_ok_sound m s :
  1 <= s <= m -> m <= 2 ^ 20 ->
  side_ok (truediv 1024 m) (Uint63.of_Z m) (Uint63.of_Z s) = true ->
  exists n, to_int (mul_int s (truediv 1024 m)) = Some n
            /\ 0 <= n <= 1024
            /\ m * n <= 1024 * s <= m * n + m
            /\ (s = m -> 1023 <= n)
            /\ (s = m -> m = 4096 -> n = 1024)
            /\ (m <= 1024 * s -> 1 <= n).
Proof.
  intros Hs Hm. unfold side_ok, to_int, mul_int, of_int.
  assert (Hs0 : (s <? 0) = false) by (apply Z.ltb_ge; lia).
  rewrite Hs0.
  set (p := (PrimFloat.of_uint63 (Uint63.of_Z s) * truediv 1024 m)%float).
  destruct (is_nan p || is_infinity p)%bool; [discriminate|].
  destruct (p <? 0)%float; [discriminate|].
  destruct (frshiftexp p) as [r e]. cbn [negb andb].
  destruct (e <=? 2154)%uint63; [|discriminate]. cbn [andb].
  set (n := (normfr_mantissa r >> (2154 - e))%uint63).
  rewrite !andb_true_iff. intros [[[[[Hn Hlo] Hhi] Hlong] H4096] Hpos].
  exists (Uint63.to_Z n). rewrite int_to_Z_spec.
  assert (Em : Uint63.to_Z (Uint63.of_Z m) = m)
    by (apply to_Z_of_Z_small; lia).
  assert (Es : Uint63.to_Z (Uint63.of_Z s) = s)
    by (apply to_Z_of_Z_small; lia).
  apply leb_spec in Hn. change (Uint63.to_Z 1024) with 1024 in Hn.
  pose proof (to_Z_bounded n) as Hnb.
  assert (Emn : Uint63.to_Z (Uint63.of_Z m * n) = m * Uint63.to_Z n).
  { rewrite mul_spec, Em. apply Z.mod_small. change wB with (2 ^ 63). nia. }
  assert (Eks : Uint63.to_Z (1024 * Uint63.of_Z s) = 1024 * s).
  { rewrite mul_spec, Es. change (Uint63.to_Z 1024) with 1024.
    apply Z.mod_small. change wB with (2 ^ 63). lia. }
  assert (Emnm : Uint63.to_Z (Uint63.of_Z m * n + Uint63.of_Z m)
                 = m * Uint63.to_Z n + m).
  { rewrite add_spec, Emn, Em. apply Z.mod_small.
    change wB with (2 ^ 63). nia. }
  apply leb_spec in Hlo. rewrite Emn, Eks in Hlo.
  apply leb_spec in Hhi. rewrite Eks, Emnm in Hhi.
  split; [reflexivity|]. split; [lia|]. split; [lia|].
  assert (Heq : s = m -> (Uint63.of_Z s =? Uint63.of_Z m)%uint63 = true).
  { intros E. rewrite E. apply Uint63.eqb_refl. }
  split; [|split].
  - intros E. rewrite (Heq E) in Hlong.
    apply leb_spec in Hlong. exact Hlong.
  - intros E E4. rewrite (Heq E), E4 in H4096.
    change (Uint63.of_Z 4096 =? 4096)%uint63 with true in H4096.
    cbn [andb] in H4096. apply leb_spec in H4096.
    change (Uint63.to_Z 1024) with 1024 in H4096. lia.
  - intros Hge.
    assert (Hb : (Uint63.of_Z m <=? 1024 * Uint63.of_Z s)%uint63 = true).
    { apply leb_spec. rewrite Em, Eks. exact Hge. }
    rewrite Hb in Hpos. apply leb_spec in Hpos. exact Hpos.
Qed.

(** Every pair of sides with longer side in (1024, 4096]. *)
Lemma rows_checked : forall_range (Z.to_nat 3072) 1025 row_ok = true.
Proof. vm_cast_no_check (eq_refl true). Qed.

Lemma scaled_side m s :
  1024 < m <= 4096 -> 1 <= s <= m ->
  exists n, to_int (mul_int s (truediv 1024 m)) = Some n
            /\ 0 <= n <= 1024
            /\ m * n <= 1024 * s <= m * n + m
            /\ (s = m -> 1023 <= n)
            /\ (s = m -> m = 4096 -> n = 1024)
            /\ (m <= 1024 * s -> 1 <= n).
Proof.
  intros Hm Hs. apply side_ok_sound; [exact Hs | lia |].
  pose proof (forall_range_spec (Z.to_nat 3072) 1025 row_ok rows_checked m)
    as Hrow.
  unfold row_ok in Hrow.
  apply (forall_int_spec (Z.to_nat m) 1); [apply Hrow; lia | lia].
Qed.

End ScaleFacts.

(** ** Double-precision arithmetic

    The scaling [int(s * (1024 / m))] for every longer side [m], from
    the specification of the IEEE operations: a rounded mantissa is the
    53 leading bits of the exact one, or one unit in the last place
    more. *)

Module FloatFacts.
Import PyFloat.






























End FloatFacts.

(** ** FaceSelector *)

Example pretty_count : face_index_message 3 5
  = "The image includes only 3 faces, however, you asked for face 5".
Proof. reflexivity. Qed.

Example splitext_fp16 :
  splitext_root "inswapper_128.fp16.onnx" = "inswapper_128.fp16"
  /\ splitext_root "inswapper_128.onnx" = "inswapper_128"
  /\ splitext_root ".hidden" = ".hidden"
  /\ splitext_root "a.b/c" = "a.b/c".
Proof. repeat split; reflexivity. Qed.

Example py_int_samples :
  py_int "20971520" = Some 20971520 /\ py_int " -12 " = Some (-12)
  /\ py_int "1_000" = Some 1000 /\ py_int "1__0" = None
  /\ py_int "abc" = None /\ py_int "+" = None
  /\ py_int (String (ascii_of_nat 31) "5") = None
  /\ py_int (String (ascii_of_nat 160) "5") = Some 5
  /\ py_int "007" = Some 7.
Proof. repeat split; reflexivity. Qed.

Example format_samples :
  format_mb_2f 20971520 = "20.00" /\ format_mb_2f 10485761 = "10.00"
  /\ format_mb_2f 15204352 = "14.50" /\ format_mb_2f 11010049 = "10.50".
Proof. repeat split; vm_compute; reflexivity. Qed.

Example sort_demo :
  map payload (sort_faces demo_faces) = [2; 3; 1].
Proof. reflexivity. Qed.

Lemma insert_face_perm x l : Permutation (insert_face x l) (x :: l).
Proof.
  induction l as [|y r IH]; simpl; [reflexivity|].
  destruct (Qlt_le_dec (bbox0 y) (bbox0 x)); [|reflexivity].
  rewrite IH. apply perm_swap.
Qed.

Lemma insert_face_sorted x l :
  StronglySorted left_of l -> StronglySorted left_of (insert_face x l).
Proof.
  induction 1 as [|y r Hr IH Hy]; simpl.
  - repeat constructor.
  - destruct (Qlt_le_dec (bbox0 y) (bbox0 x)) as [Hlt|Hle].
    + constructor; [exact IH|].
      rewrite insert_face_perm. constructor; [|exact Hy].
      apply Qlt_le_weak, Hlt.
    + constructor; [constructor; assumption|].
      constructor; [exact Hle|].
      eapply Forall_impl; [exact Hy|].
      intros z Hz. unfold left_of in *. eapply Qle_trans; eassumption.
Qed.

Lemma sort_faces_perm faces : Permutation (sort_faces faces) faces.
Proof.
  induction faces as [|x r IH]; simpl; [reflexivity|].
  rewrite insert_face_perm. now rewrite IH.
Qed.

Lemma sort_faces_sorted faces : StronglySorted left_of (sort_faces faces).
Proof.
  induction faces as [|x r IH]; simpl; [constructor|].
  now apply insert_face_sorted.
Qed.

Lemma sort_faces_length faces : length (sort_faces faces) = length faces.
Proof. apply Permutation_length, sort_faces_perm. Qed.

(** An ordered list is left alone. *)
Lemma sort_faces_idempotent faces :
  sort_faces (sort_faces faces) = sort_faces faces.
Proof.
  assert (Hfix : forall l, StronglySorted left_of l -> sort_faces l = l).
  { induction 1 as [|y r Hr IH Hy]; simpl; [reflexivity|].
    rewrite IH. destruct Hr as [|z r' Hr' Hz]; simpl; [reflexivity|].
    destruct (Qlt_le_dec (bbox0 z) (bbox0 y)) as [Hlt|Hle]; [|reflexivity].
    apply Forall_cons in Hy as [Hyz _]. unfold left_of in Hyz.
    exfalso. eapply Qlt_not_le; eassumption. }
  apply Hfix, sort_faces_sorted.
Qed.

(** C1.  On a list of [N] faces, [get_face] with a 1-based index [i]
    returns the face at position [i] from the left when [1 <= i <= N];
    for any other [i] it raises the 400 error whose message carries both
    [N] and [i]: "The image includes only N faces, however, you asked for
    face i". *)
Theorem get_face_select (faces : list Face) (i : Z) :
  let N := Z.of_nat (length faces) in
  (1 <= i <= N ->
   exists face, faces !! Z.to_nat (i - 1) = Some face
                /\ get_face faces i = Ok face)
  /\ (i < 1 \/ N < i ->
      get_face faces i
      = Raise (HTTPException 400
                 ("The image includes only " +:+ pretty N
                  +:+ " faces, however, you asked for face " +:+ pretty i))).
Proof.
  intros N. unfold get_face. fold N. split.
  - intros Hi.
    assert (Hlt : (Z.to_nat (i - 1) < length faces)%nat) by lia.
    destruct (lookup_lt_is_Some_2 faces _ Hlt) as [face Hface].
    exists face. split; [exact Hface|].
    replace ((N <? i) || (i <? 1)) with false
      by (symmetry; apply orb_false_iff; split; apply Z.ltb_ge; lia).
    now rewrite Hface.
  - intros Hi.
    replace ((N <? i) || (i <? 1)) with true; [reflexivity|].
    symmetry. apply orb_true_iff.
    destruct Hi; [right | left]; apply Z.ltb_lt; lia.
Qed.

Lemma get_face_select_witness :
  (exists face, sort_faces demo_faces !! 1%nat = Some face
                /\ get_face (sort_faces demo_faces) 2 = Ok face)
  /\ get_face (sort_faces demo_faces) 5
     = Raise (HTTPException 400
         "The image includes only 3 faces, however, you asked for face 5").
Proof.
  split.
  - apply (get_face_select (sort_faces demo_faces) 2). simpl. lia.
  - apply (get_face_select (sort_faces demo_faces) 5). simpl. lia.
Defined.

(** ** Image ingest *)

Section ResizeFacts.
Context `{Collaborators}.

(** C10.  An image whose longer side is at most the cap (1024 px by
    default) is returned as it is: no upscaling, no resampling; running
    the function on its own result changes nothing. *)
Theorem resize_within_bounds (image_array : ndarray) (max_dimension : Z) :
  Z.max image_array.(height) image_array.(width) <= max_dimension ->
  validate_and_resize_image image_array max_dimension = Ok image_array
  /\ match validate_and_resize_image image_array max_dimension with
     | Ok once => validate_and_resize_image once max_dimension
     | Raise e => Raise e
     end = validate_and_resize_image image_array max_dimension.
Proof.
  intros Hle.
  assert (E : validate_and_resize_image image_array max_dimension
              = Ok image_array).
  { unfold validate_and_resize_image.
    destruct (Z.gtb_spec (Z.max (height image_array) (width image_array))
                max_dimension) as [Hgt|_]; [lia | reflexivity]. }
  split; [exact E|]. rewrite E. exact E.
Qed.


End ResizeFacts.



(** The shorter side can vanish although its exactly scaled value is a
    full pixel: [49 * (1024 / 50176)] is [0.9999999999999999] in double
    precision, and Pillow refuses the size. *)
Example resize_50176_by_49_refused :
  PyFloat.to_int (PyFloat.mul_int 49 (PyFloat.truediv 1024 50176)) = Some 0
  /\ validate_and_resize_image (image_of 50176 49) 1024
     = Raise (Exception "height and width must be > 0").
Proof. split; vm_compute; reflexivity. Qed.

Lemma resize_within_bounds_witness :
  validate_and_resize_image demo_image 1024 = Ok demo_image.
Proof. apply (resize_within_bounds demo_image 1024). simpl. lia. Defined.

Example resize_examples :
  validate_and_resize_image (image_of 4096 2048) 1024
  = Ok (image_of 1024 512)
  /\ validate_and_resize_image (image_of 1568 1000) 1024
     = Ok (image_of 1023 653).
Proof. repeat split; vm_compute; reflexivity. Qed.

(** The product behind the 1023: [1122 * (1024 / 1122)] is the double
    [(2^53 - 1) * 2^-43], one unit in the last place below 1024. *)
Example product_below_cap :
  Prim2SF (PyFloat.mul_int 1122 (PyFloat.truediv 1024 1122))
  = S754_finite false 9007199254740991 (-43)
  /\ PyFloat.to_int (PyFloat.mul_int 1122 (PyFloat.truediv 1024 1122))
     = Some 1023
  /\ PyFloat.to_int (PyFloat.mul_int 4096 (PyFloat.truediv 1024 4096))
     = Some 1024
  /\ PyFloat.to_int (PyFloat.truediv (-7) 2) = Some (-3)
  /\ PyFloat.to_int (PyFloat.truediv 1 0) = None.
Proof. repeat split; vm_compute; reflexivity. Qed.

Section IngestFacts.
Context `{Collaborators}.

Lemma py_int_empty : py_int "" = None.
Proof. reflexivity. Qed.

(** C5, as the code has it.  When the response declares a content length
    above the 10 MB cap, [download_image] fails with an [HTTPException]
    and never hands the body to the image decoder; the check runs after
    [requests.get] has returned, that is, with the whole body already
    buffered: the log grows by exactly that one call. *)
Theorem oversized_fetch_rejected
    (url : string) (st : State) (response : Response)
    (declared : string) (n : Z) :
  requests_get st.(log) url = Ok response ->
  response.(content_length) = Some declared ->
  py_int declared = Some n ->
  10 * 1024 * 1024 < n ->
  exists status_code detail,
    download_image url st
    = (logged st [RequestsGet url (String.length response.(content))],
       Raise (HTTPException status_code detail)).
Proof.
  intros Hget Hlen Hint Hbig.
  unfold download_image, try_except, download_image_try, bind, lift, emit.
  rewrite Hget. fold (logged st
    [RequestsGet url (String.length response.(content))]).
  destruct (raise_for_status response) as [[]|e] eqn:Est.
  - unfold check_content_length. rewrite Hlen.
    destruct (String.eqb_spec declared "") as [->|_];
      [rewrite py_int_empty in Hint; discriminate|].
    rewrite Hint.
    destruct (truediv_overflow_bound <=? Z.abs n); [unfold raise; eauto|].
    destruct (Z.ltb_spec (10 * (1024 * 1024)) n) as [_|?]; [|lia].
    unfold raise; eauto.
  - unfold raise_for_status in Est.
    destruct ((400 <=? status response) && (status response <? 600));
      [|discriminate].
    injection Est as <-. unfold raise; eauto.
Qed.

End IngestFacts.

(** C5 as stated fails: a declared length of 20 MiB ends as a 500, not a
    4xx, because the 413 raised inside the [try] is caught by the final
    [except Exception] and wrapped; and the three body bytes had already
    been read when the header was looked at. *)
Lemma oversized_fetch_is_500_after_download :
  download_image "big" fresh
  = (logged fresh [RequestsGet "big" 3],
     Raise (HTTPException 500
       "Error processing image from big: 413: Image too large: 20.00 MB (max 10MB)"))
  /\ transport_status (download_image "big" fresh).2 = 500.
Proof. split; vm_compute; reflexivity. Qed.

Lemma oversized_fetch_rejected_witness :
  exists status_code detail,
    download_image "big" fresh
    = (logged fresh [RequestsGet "big" 3],
       Raise (HTTPException status_code detail)).
Proof.
  apply (oversized_fetch_rejected "big" fresh
           {| status := 200; content_length := Some "20971520";
              content := "png" |} "20971520" 20971520);
    [reflexivity | reflexivity | reflexivity | lia].
Defined.

(** ** The serverless envelope *)

Section EnvelopeFacts.
Context `{Collaborators}.

(** C4.  [/runsync] never ends in a transport-level error: whatever the
    pipeline does, the handler returns a response (a 200).  When the
    pipeline failed, for bad input, a face index out of range or an
    internal error alike, the output has [success = false], the message
    of the failure, and no [image_base64]. *)
Theorem runsync_always_returns (request : RunPodRequest) (st : State) :
  let pipeline :=
    perform_face_swap_logic request.(input).(source_url)
      request.(input).(target_url) request.(input).(source_index)
      request.(input).(target_index) st in
  exists response,
    runsync_face_swap request st = (pipeline.1, Ok response)
    /\ transport_status (runsync_face_swap request st).2 = 200
    /\ forall e, pipeline.2 = Raise e ->
         response.(output).(success) = false
         /\ response.(output).(image_base64) = None
         /\ response.(output).(message) = failure_message e.
Proof.
  intros pipeline. unfold runsync_face_swap. fold pipeline.
  destruct pipeline as [st' [result_base64|e]]; cbn [fst snd].
  - eexists. split; [reflexivity|]. split; [reflexivity|]. discriminate.
  - destruct e as [sc detail|msg|msg];
      (eexists; split; [reflexivity|]; split; [reflexivity|];
       intros e' [= <-]; repeat split; reflexivity).
Qed.

End EnvelopeFacts.

Example ready_state :
  ready.(log)
  = [ FaceAnalysisPrepare;
      LoadAttempt "inswapper_128.fp16.onnx" 1 3;
      ModelZooGetModel "inswapper_128.fp16" true;
      LoadAttempt "inswapper_128.fp16.onnx" 2 3;
      ModelZooGetModel "inswapper_128.fp16" true;
      LoadAttempt "inswapper_128.fp16.onnx" 3 3;
      ModelZooGetModel "inswapper_128.fp16" true;
      LoadAttempt "inswapper_128.onnx" 1 3;
      ModelZooGetModel "inswapper_128" true ]
  /\ ready.(swapper_model) = Some {| loaded_from := "inswapper_128" |}
  /\ ready.(lru) = Some ({| fa_name := "buffalo_l"; fa_ctx_id := 0;
                            fa_det_size := (640, 640) |},
                         {| loaded_from := "inswapper_128" |}).
Proof. repeat split; reflexivity. Qed.

Lemma runsync_always_returns_witness :
  exists response,
    (runsync_face_swap (demo_request "source" 0 1) ready).2 = Ok response
    /\ response.(output).(success) = false
    /\ response.(output).(image_base64) = None
    /\ response.(output).(message)
       = "The image includes only 3 faces, however, you asked for face 0".
Proof.
  destruct (runsync_always_returns (demo_request "source" 0 1) ready)
    as (response & E & _ & Hfail).
  exists response. split; [rewrite E; reflexivity|].
  destruct (Hfail (HTTPException 400
    "The image includes only 3 faces, however, you asked for face 0"))
    as (Hs & Hi & Hm); [vm_compute; reflexivity|].
  auto.
Defined.

(** ** Frame lemmas *)

Lemma ext_refl allowed st : ext allowed st st.
Proof.
  repeat split. exists []. split; [now rewrite app_nil_r | constructor].
Qed.

Lemma ext_trans allowed st1 st2 st3 :
  ext allowed st1 st2 -> ext allowed st2 st3 -> ext allowed st1 st3.
Proof.
  intros (L1 & A1 & S1 & evs1 & E1 & F1) (L2 & A2 & S2 & evs2 & E2 & F2).
  repeat split; try congruence.
  exists (evs1 ++ evs2). split.
  - rewrite E2, E1. now rewrite app_assoc.
  - apply Forall_app. now split.
Qed.

Lemma ext_weaken (P Q : Event -> bool) st st' :
  (forall e, P e = true -> Q e = true) -> ext P st st' -> ext Q st st'.
Proof.
  intros HPQ (L & A & S & evs & E & F). repeat split; try assumption.
  exists evs. split; [exact E|]. eapply Forall_impl; [exact F|]. exact HPQ.
Qed.

Lemma ext_emit allowed e st :
  allowed e = true -> ext allowed st (emit e st).1.
Proof.
  intros He. repeat split. exists [e]. split; [reflexivity|].
  now constructor.
Qed.

Lemma ext_set_fs allowed f st : ext allowed st (set_fs f st).1.
Proof. repeat split. exists []. split; [now rewrite app_nil_r | constructor]. Qed.

Lemma ext_logged allowed st evs :
  Forall (fun e => allowed e = true) evs -> ext allowed st (logged st evs).
Proof. intros F. repeat split. exists evs. now split. Qed.

Lemma keeps_weaken (P Q : Event -> bool) {A} (m : M A) :
  (forall e, P e = true -> Q e = true) -> keeps P m -> keeps Q m.
Proof. intros HPQ Hm st. eapply ext_weaken; [exact HPQ | apply Hm]. Qed.

Lemma keeps_ret allowed {A} (a : A) : keeps allowed (ret a).
Proof. intros st. apply ext_refl. Qed.

Lemma keeps_raise allowed {A} (e : exn) : keeps allowed (raise (A := A) e).
Proof. intros st. apply ext_refl. Qed.

Lemma keeps_lift allowed {A} (r : result A) : keeps allowed (lift r).
Proof. intros st. apply ext_refl. Qed.

Lemma keeps_emit allowed e : allowed e = true -> keeps allowed (emit e).
Proof. intros He st. now apply ext_emit. Qed.

Lemma keeps_bind allowed {A B} (m : M A) (k : A -> M B) :
  keeps allowed m -> (forall a, keeps allowed (k a)) ->
  keeps allowed (bind m k).
Proof.
  intros Hm Hk st. unfold bind. specialize (Hm st).
  destruct (m st) as [st' [a|e]]; cbn [fst] in *; [|exact Hm].
  eapply ext_trans; [exact Hm | apply Hk].
Qed.

Lemma keeps_try_except allowed {A} (m : M A) (h : exn -> M A) :
  keeps allowed m -> (forall e, keeps allowed (h e)) ->
  keeps allowed (try_except m h).
Proof.
  intros Hm Hh st. unfold try_except. specialize (Hm st).
  destruct (m st) as [st' [a|e]]; cbn [fst] in *; [exact Hm|].
  eapply ext_trans; [exact Hm | apply Hh].
Qed.

Lemma keeps_for_each allowed {A} (xs : list A) (body : A -> M unit) :
  (forall x, keeps allowed (body x)) -> keeps allowed (for_each xs body).
Proof.
  intros Hb. induction xs as [|x r IH]; simpl.
  - apply keeps_ret.
  - apply keeps_bind; [apply Hb | intros _; exact IH].
Qed.

Section StoreFrames.
Context `{Collaborators}.

Lemma keeps_os_remove allowed p : keeps allowed (os_remove p).
Proof.
  intros st. unfold os_remove.
  destruct (isfile (fs st) p && negb (os_refuses (Unlink (abspath p))));
    [apply ext_set_fs | apply ext_refl].
Qed.

Lemma keeps_copy2 allowed src dst : keeps allowed (copy2 src dst).
Proof.
  intros st. unfold copy2.
  destruct (fs st !! abspath src); [|apply ext_refl].
  cbv zeta. destruct (String.eqb src ""); [apply ext_refl|].
  destruct (String.eqb _ _); [apply ext_refl|].
  destruct (_ || _); [apply ext_refl | apply ext_set_fs].
Qed.

Lemma keeps_ignore_errors allowed (m : M unit) :
  keeps allowed m -> keeps allowed (ignore_errors m).
Proof.
  intros Hm. apply keeps_try_except; [exact Hm|].
  intros _. apply keeps_ret.
Qed.

Lemma keeps_fix_corrupted_model allowed model_path :
  keeps allowed (fix_corrupted_model model_path).
Proof.
  unfold fix_corrupted_model. apply keeps_try_except;
    [|intros _; apply keeps_ret].
  unfold fix_corrupted_model_try. apply keeps_bind.
  - intros st. unfold backup_and_remove.
    destruct (path_exists (fs st) model_path); [|apply ext_refl].
    apply keeps_bind; [|intros _; apply keeps_os_remove].
    apply keeps_ignore_errors, keeps_copy2.
  - intros _. apply keeps_bind; [|intros _; apply keeps_ret].
    unfold clear_cache.
    apply keeps_for_each. intros cache_path st. unfold clear_cache_dir.
    destruct (path_exists (fs st) cache_path); [|apply ext_refl].
    destruct (listdir (fs st) cache_path) as [entries|e]; [|apply ext_refl].
    apply keeps_for_each. intros model_file.
    apply keeps_ignore_errors, keeps_os_remove.
Qed.

Lemma keeps_validate_onnx_model model_path :
  keeps is_structural_load (validate_onnx_model model_path).
Proof.
  intros st. unfold validate_onnx_model.
  destruct (negb (path_exists (fs st) model_path)); [apply ext_refl|].
  cbn [emit]. 
  match goal with |- context [?f !! ?k] => destruct (f !! k) end;
    now apply (ext_emit _ (OrtInferenceSession model_path)).
Qed.

End StoreFrames.

Section LoaderFacts.
Context `{Collaborators}.

Lemma store_event_ort e : is_structural_load e = true -> store_event e = true.
Proof. unfold store_event. now intros ->. Qed.

Lemma ext_get_model st name download :
  ext store_event st
    (set_fs (model_zoo_get_model
               (log (emit (ModelZooGetModel name download) st).1)
               (fs (emit (ModelZooGetModel name download) st).1)
               name download).1
            (emit (ModelZooGetModel name download) st).1).1.
Proof.
  eapply ext_trans; [apply (ext_emit _ (ModelZooGetModel name download))
                    | apply ext_set_fs].
  reflexivity.
Qed.

Lemma validate_stage_frame found st :
  ext store_event st (validate_stage found st).1.1.
Proof.
  unfold validate_stage.
  destruct (truthy found && path_exists (fs st) (default "" found));
    [|apply ext_refl].
  pose proof (keeps_validate_onnx_model (default "" found) st) as Hv.
  apply (ext_weaken _ store_event _ _ store_event_ort) in Hv.
  destruct (validate_onnx_model (default "" found) st) as [stv r];
    cbn [fst] in Hv.
  pose proof (keeps_fix_corrupted_model store_event
                (default "" found) stv) as Hf.
  destruct r as [[|]|e]; [exact Hv| |];
    (destruct (fix_corrupted_model (default "" found) stv)
       as [stf [[|]|e']]; cbn [fst] in *; eapply ext_trans; eassumption).
Qed.

Lemma load_stage_frame model_path found st :
  ext store_event st (load_stage model_path found st).1.1.
Proof.
  unfold load_stage.
  destruct (truthy found && path_exists (fs st) (default "" found)).
  - pose proof (ext_get_model st (default "" found) false) as Hg.
    cbv zeta.
    destruct (model_zoo_get_model _ _ (default "" found) false) as [f o].
    cbn [fst] in Hg. destruct o; exact Hg.
  - pose proof (ext_get_model st (splitext_root model_path) true) as Hg.
    cbv zeta.
    destruct (model_zoo_get_model _ _ (splitext_root model_path) true)
      as [f o].
    cbn [fst] in Hg. destruct o; exact Hg.
Qed.

(** One pass of the retry loop logs its first line once and otherwise
    only talks to ONNX Runtime and the model zoo. *)
Lemma load_attempt_frame model_path attempt max_retries st :
  ext store_event
    (emit (LoadAttempt model_path (attempt + 1) max_retries) st).1
    (load_attempt model_path attempt max_retries st).1.1.
Proof.
  unfold load_attempt.
  set (st1 := (emit (LoadAttempt model_path (attempt + 1) max_retries) st).1).
  pose proof (validate_stage_frame (locate (fs st1) model_path) st1) as Hv.
  destruct (validate_stage (locate (fs st1) model_path) st1)
    as [[st2 found] failed]. cbn [fst] in Hv.
  destruct failed; [exact Hv|].
  eapply ext_trans; [exact Hv | apply load_stage_frame].
Qed.

End LoaderFacts.

(** ** Counting passes of the retry loop *)

Lemma attempts_app p l1 l2 :
  attempts p (l1 ++ l2) = (attempts p l1 + attempts p l2)%nat.
Proof. unfold attempts. now rewrite filter_app, length_app. Qed.

Lemma attempts_store p evs :
  Forall (fun e => store_event e = true) evs -> attempts p evs = 0%nat.
Proof.
  unfold attempts. induction 1 as [|e r He _ IH]; [reflexivity|].
  rewrite filter_cons. destruct e; try discriminate He;
    (destruct (decide _) as [E|_]; [discriminate E | exact IH]).
Qed.

Lemma attempts_self p a m : attempts p [LoadAttempt p a m] = 1%nat.
Proof.
  unfold attempts. rewrite filter_cons. cbn [is_load_attempt].
  rewrite String.eqb_refl. now destruct (decide _).
Qed.

Lemma attempts_other p q a m :
  q <> p -> attempts q [LoadAttempt p a m] = 0%nat.
Proof.
  intros Hne. unfold attempts. rewrite filter_cons. cbn [is_load_attempt].
  destruct (String.eqb_spec p q) as [->|_]; [congruence|].
  now destruct (decide _).
Qed.

Section RetryFacts.
Context `{Collaborators}.

(** What the log says after one pass. *)
Lemma load_attempt_log model_path attempt max_retries st :
  let st' := (load_attempt model_path attempt max_retries st).1.1 in
  st'.(lru) = st.(lru)
  /\ st'.(face_analysis_app) = st.(face_analysis_app)
  /\ st'.(swapper_model) = st.(swapper_model)
  /\ exists evs,
       st'.(log) = st.(log) ++ evs
       /\ attempts model_path evs = 1%nat
       /\ forall q, q <> model_path -> attempts q evs = 0%nat.
Proof.
  destruct (load_attempt_frame model_path attempt max_retries st)
    as (L & A & S & evs & E & F).
  cbn [emit fst log lru face_analysis_app swapper_model] in *.
  repeat split; try assumption.
  exists (LoadAttempt model_path (attempt + 1) max_retries :: evs).
  split; [rewrite E; now rewrite <- app_assoc|].
  change (LoadAttempt model_path (attempt + 1) max_retries :: evs)
    with ([LoadAttempt model_path (attempt + 1) max_retries] ++ evs).
  split; [|intros q Hq]; rewrite attempts_app, (attempts_store _ evs F).
  - now rewrite attempts_self.
  - now rewrite attempts_other.
Qed.

(** The retry loop makes at most [remaining] passes, all of them for its
    own variant; it raises only after the last one; and it returns
    [None] only when there was no pass to make. *)
Lemma load_swapper_loop_log model_path max_retries remaining attempt st :
  attempt + Z.of_nat remaining = max_retries ->
  let run := load_swapper_loop model_path max_retries remaining attempt st in
  run.1.(lru) = st.(lru)
  /\ run.1.(face_analysis_app) = st.(face_analysis_app)
  /\ run.1.(swapper_model) = st.(swapper_model)
  /\ exists evs,
       run.1.(log) = st.(log) ++ evs
       /\ (attempts model_path evs <= remaining)%nat
       /\ (forall q, q <> model_path -> attempts q evs = 0%nat)
       /\ (raised run.2 = true -> attempts model_path evs = remaining)
       /\ (run.2 = Ok None -> remaining = 0%nat).
Proof.
  revert attempt st.
  induction remaining as [|k IH]; intros attempt st Hsum; cbn zeta.
  - cbn [load_swapper_loop ret fst snd]. repeat split.
    exists []. rewrite app_nil_r. repeat split; try reflexivity.
  - cbn [load_swapper_loop].
    destruct (load_attempt_log model_path attempt max_retries st)
      as (L1 & A1 & S1 & evs1 & E1 & N1 & O1).
    destruct (load_attempt model_path attempt max_retries st)
      as [[st1 found] [model|e]]; cbn [fst snd] in *.
    + repeat split; try assumption.
      exists evs1. repeat split; try assumption; try discriminate. lia.
    + destruct (Z.ltb_spec attempt (max_retries - 1)) as [Hlt|Hge].
      * set (target := if truthy found then default "" found else model_path).
        destruct (keeps_fix_corrupted_model no_event target st1)
          as (L2 & A2 & S2 & evs2 & E2 & F2).
        assert (evs2 = []) as ->.
        { destruct F2 as [|e' r He']; [reflexivity | discriminate He']. }
        rewrite app_nil_r in E2.
        set (st2 := (fix_corrupted_model target st1).1) in *.
        destruct (IH (attempt + 1) st2 ltac:(lia))
          as (L3 & A3 & S3 & evs3 & E3 & N3 & O3 & R3 & Z3).
        repeat split; try congruence.
        exists (evs1 ++ evs3). rewrite E3, E2, E1, <- app_assoc.
        split; [reflexivity|]. rewrite attempts_app, N1.
        split; [lia|]. split; [|split].
        -- intros q Hq. now rewrite attempts_app, O1, O3.
        -- intros Hr. rewrite (R3 Hr). reflexivity.
        -- intros Hn. specialize (Z3 Hn). lia.
      * cbn [fst snd]. repeat split; try assumption.
        exists evs1. repeat split; try assumption; try discriminate; lia.
Qed.

Lemma load_swapper_model_with_recovery_log model_path max_retries st :
  0 <= max_retries ->
  let run := load_swapper_model_with_recovery model_path max_retries st in
  run.1.(lru) = st.(lru)
  /\ run.1.(face_analysis_app) = st.(face_analysis_app)
  /\ run.1.(swapper_model) = st.(swapper_model)
  /\ exists evs,
       run.1.(log) = st.(log) ++ evs
       /\ (Z.of_nat (attempts model_path evs) <= max_retries)
       /\ (forall q, q <> model_path -> attempts q evs = 0%nat)
       /\ (raised run.2 = true
           -> Z.of_nat (attempts model_path evs) = max_retries)
       /\ (run.2 = Ok None -> max_retries = 0).
Proof.
  intros Hmr. unfold load_swapper_model_with_recovery.
  destruct (load_swapper_loop_log model_path max_retries
              (Z.to_nat max_retries) 0 st ltac:(lia))
    as (L & A & S & evs & E & N & O & R & Z0).
  repeat split; try assumption.
  exists evs. repeat split; try assumption; [lia| |].
  - intros Hr. rewrite (R Hr). lia.
  - intros Hn. specialize (Z0 Hn). lia.
Qed.

End RetryFacts.

(** ** EngineCache *)

Section EngineFacts.
Context `{Collaborators}.

Lemma attempts_prepare p : attempts p [FaceAnalysisPrepare] = 0%nat.
Proof. reflexivity. Qed.

(** C2.  With the variant list [fp16, fp32] and the locator engine
    constructed: if the loader of the first variant fails (all of its
    attempts fail) and the loader of the second variant returns a model,
    initialization succeeds with that model, after exactly three attempts
    on the first variant.  In every run at most [max_retries = 3] attempts
    are made on either variant, and initialization raises only when both
    variants have used all three of their attempts. *)
Theorem variant_fallback (st0 : State) (f : FS) :
  let A := "inswapper_128.fp16.onnx" in
  let B := "inswapper_128.onnx" in
  let st1 := (set_fs f (emit FaceAnalysisPrepare st0).1).1 in
  let run := get_cached_models_body st0 in
  face_analysis_prepare (st0.(log) ++ [FaceAnalysisPrepare]) st0.(fs)
  = (f, None) ->
  (forall model,
     raised (load_swapper_model_with_recovery A 3 st1).2 = true ->
     (load_swapper_model_with_recovery B 3
        (load_swapper_model_with_recovery A 3 st1).1).2 = Ok (Some model) ->
     run.2 = Ok (buffalo_l, model)
     /\ attempts A run.1.(log) = (attempts A st0.(log) + 3)%nat)
  /\ ((attempts A run.1.(log) <= attempts A st0.(log) + 3)%nat
      /\ (attempts B run.1.(log) <= attempts B st0.(log) + 3)%nat)
  /\ (raised run.2 = true ->
      attempts A run.1.(log) = (attempts A st0.(log) + 3)%nat
      /\ attempts B run.1.(log) = (attempts B st0.(log) + 3)%nat).
Proof.
  intros A B st1 run Hloc.
  assert (Hrun : run =
    match load_first_variant model_paths st1 with
    | (st2, Ok (Some swapper)) => (st2, Ok (buffalo_l, swapper))
    | (st2, Ok None) =>
        (st2, Raise (Exception "Failed to load any swapper model variant"))
    | (st2, Raise e) => (st2, Raise e)
    end).
  { unfold run, get_cached_models_body. cbn [emit fst log fs].
    rewrite Hloc. reflexivity. }
  assert (Hlog1 : st1.(log) = st0.(log) ++ [FaceAnalysisPrepare])
    by reflexivity.
  assert (HAB : A <> B) by discriminate.
  assert (HBA : B <> A) by discriminate.
  destruct (load_swapper_model_with_recovery_log A 3 st1 ltac:(lia))
    as (_ & _ & _ & evsA & EA & NA & OA & RA & ZA).
  unfold model_paths in Hrun. cbn [load_first_variant] in Hrun.
  fold A B in Hrun.
  destruct (load_swapper_model_with_recovery A 3 st1) as [stA rA] eqn:ErA.
  cbn [fst snd] in *.
  destruct (load_swapper_model_with_recovery_log B 3 stA ltac:(lia))
    as (_ & _ & _ & evsB & EB & NB & OB & RB & ZB).
  destruct (load_swapper_model_with_recovery B 3 stA) as [stB rB] eqn:ErB.
  cbn [fst snd] in *.
  assert (CA : attempts A (log stA) = (attempts A (log st0) + attempts A evsA)%nat).
  { rewrite EA, Hlog1, !attempts_app, attempts_prepare. lia. }
  assert (CB0 : attempts B (log stA) = attempts B (log st0)).
  { rewrite EA, Hlog1, !attempts_app, attempts_prepare, (OA B HBA). lia. }
  assert (CAB : attempts A (log stB) = attempts A (log stA)).
  { rewrite EB, attempts_app, (OB A HAB). lia. }
  assert (CB : attempts B (log stB) = (attempts B (log st0) + attempts B evsB)%nat).
  { rewrite EB, attempts_app, CB0. reflexivity. }
  destruct rA as [[modelA|]|eA].
  - (* the first variant loads *)
    rewrite Hrun. cbn [fst snd raised]. split; [|split].
    + intros model Hr. discriminate Hr.
    + rewrite CA, CB0. lia.
    + discriminate.
  - specialize (ZA eq_refl). lia.
  - specialize (RA eq_refl).
    destruct rB as [[modelB|]|eB].
    + rewrite Hrun. cbn [fst snd raised]. split; [|split].
      * intros model _ [= <-]. split; [reflexivity|]. rewrite CAB, CA. lia.
      * rewrite CAB, CA, CB. lia.
      * discriminate.
    + specialize (ZB eq_refl). lia.
    + specialize (RB eq_refl). cbn [load_first_variant ret] in Hrun.
      rewrite Hrun. cbn [fst snd raised]. split; [|split].
      * intros model _ Hm. discriminate Hm.
      * rewrite CAB, CA, CB. lia.
      * intros _. rewrite CAB, CA, CB. lia.
Qed.

End EngineFacts.

Lemma variant_fallback_witness :
  (get_cached_models_body fresh).2
  = Ok (buffalo_l, {| loaded_from := "inswapper_128" |})
  /\ attempts "inswapper_128.fp16.onnx" (get_cached_models_body fresh).1.(log)
     = 3%nat.
Proof.
  destruct (variant_fallback (H := demo) fresh ∅ eq_refl)
    as [Hfallback _].
  apply (Hfallback {| loaded_from := "inswapper_128" |});
    vm_compute; reflexivity.
Defined.

Section CacheFacts.
Context `{Collaborators}.

Lemma loader_event_store paths e :
  store_event e = true -> loader_event paths e = true.
Proof. unfold loader_event. now intros ->. Qed.

Lemma loader_event_attempt paths p a m :
  p ∈ paths -> loader_event paths (LoadAttempt p a m) = true.
Proof.
  intros Hin. unfold loader_event. apply orb_true_iff. right.
  apply existsb_exists. exists p. split.
  - now apply list_elem_of_In.
  - cbn. apply String.eqb_refl.
Qed.

Lemma load_swapper_loop_frame paths model_path max_retries remaining
    attempt st :
  model_path ∈ paths ->
  ext (loader_event paths) st
    (load_swapper_loop model_path max_retries remaining attempt st).1.
Proof.
  intros Hin. revert attempt st.
  induction remaining as [|k IH]; intros attempt st; cbn [load_swapper_loop].
  - apply ext_refl.
  - assert (H1 : ext (loader_event paths) st
                   (load_attempt model_path attempt max_retries st).1.1).
    { eapply ext_trans.
      - apply (ext_emit _ (LoadAttempt model_path (attempt + 1) max_retries)).
        now apply loader_event_attempt.
      - eapply ext_weaken; [apply loader_event_store|].
        apply load_attempt_frame. }
    destruct (load_attempt model_path attempt max_retries st)
      as [[st1 found] [model|e]]; cbn [fst] in *; [exact H1|].
    destruct (attempt <? max_retries - 1); [|exact H1].
    eapply ext_trans; [exact H1|].
    eapply ext_trans; [apply keeps_fix_corrupted_model | apply IH].
Qed.

Lemma load_first_variant_frame all paths st :
  paths ⊆ all ->
  ext (loader_event all) st (load_first_variant paths st).1.
Proof.
  revert st. induction paths as [|p r IH]; intros st Hsub;
    cbn [load_first_variant].
  - apply ext_refl.
  - assert (Hp : ext (loader_event all) st
                   (load_swapper_model_with_recovery p 3 st).1).
    { apply load_swapper_loop_frame. apply Hsub. now left. }
    destruct (load_swapper_model_with_recovery p 3 st) as [st1 [m|e]];
      cbn [fst] in *; [exact Hp|].
    eapply ext_trans; [exact Hp|]. apply IH.
    intros q Hq. apply Hsub. now right.
Qed.

(** Initialization leaves the cache slot and the globals alone; it
    constructs the locator exactly once and otherwise only loads
    swapper variants. *)
Lemma get_cached_models_body_frame st :
  ext (loader_event model_paths)
    (emit FaceAnalysisPrepare st).1 (get_cached_models_body st).1.
Proof.
  unfold get_cached_models_body.
  set (st1 := (emit FaceAnalysisPrepare st).1).
  destruct (face_analysis_prepare (log st1) (fs st1)) as [f [msg|]];
    cbn [fst]; [apply ext_set_fs|].
  assert (H2 : ext (loader_event model_paths) st1
                 (load_first_variant model_paths (set_fs f st1).1).1).
  { eapply ext_trans; [apply ext_set_fs|].
    now apply load_first_variant_frame. }
  destruct (load_first_variant model_paths (set_fs f st1).1)
    as [st2 [[swapper|]|e]]; exact H2.
Qed.

Lemma count_app p l1 l2 : count p (l1 ++ l2) = (count p l1 + count p l2)%nat.
Proof. unfold count. now rewrite filter_app, length_app. Qed.

Lemma count_none (p allowed : Event -> bool) evs :
  (forall e, allowed e = true -> p e = false) ->
  Forall (fun e => allowed e = true) evs -> count p evs = 0%nat.
Proof.
  intros Hdisj. unfold count. induction 1 as [|e r He _ IH]; [reflexivity|].
  rewrite filter_cons. rewrite (Hdisj e He).
  destruct (decide _) as [E|_]; [discriminate E | exact IH].
Qed.

Lemma loader_event_not_init paths e :
  loader_event paths e = true -> is_engine_init e = false.
Proof.
  destruct e; try reflexivity. unfold loader_event. cbn.
  intros Hex. apply existsb_exists in Hex as (p & _ & Hp). discriminate Hp.
Qed.

Lemma get_cached_models_body_init st :
  (get_cached_models_body st).1.(lru) = st.(lru)
  /\ count is_engine_init (get_cached_models_body st).1.(log)
     = (count is_engine_init st.(log) + 1)%nat.
Proof.
  destruct (get_cached_models_body_frame st) as (L & _ & _ & evs & E & F).
  cbn [emit fst lru log] in *. split; [exact L|].
  rewrite E, !count_app.
  rewrite (count_none _ _ evs (loader_event_not_init model_paths) F).
  change (count is_engine_init [FaceAnalysisPrepare]) with 1%nat. lia.
Qed.

(** C3.  The cache keeps a success and never a failure.  Once a bundle
    is stored, a call returns it and leaves the state, its log included,
    as it was, so nothing is initialized again.  On an empty cache a
    successful initialization stores its bundle, and every later call
    returns that bundle; a failed one leaves the cache empty, and the
    next call runs the whole initialization again, starting with the
    construction of the locator. *)
Theorem cache_keeps_success_only (st : State) :
  (forall bundle, st.(lru) = Some bundle ->
     get_cached_models st = (st, Ok bundle))
  /\ (st.(lru) = None ->
      forall st' bundle,
        get_cached_models st = (st', Ok bundle) ->
        st'.(lru) = Some bundle
        /\ get_cached_models st' = (st', Ok bundle))
  /\ (st.(lru) = None ->
      forall st' e,
        get_cached_models st = (st', Raise e) ->
        st'.(lru) = None
        /\ get_cached_models st'
           = match get_cached_models_body st' with
             | (st'', Ok bundle) => ((set_lru (Some bundle) st'').1, Ok bundle)
             | (st'', Raise e') => (st'', Raise e')
             end
        /\ count is_engine_init (get_cached_models st').1.(log)
           = (count is_engine_init st'.(log) + 1)%nat).
Proof.
  assert (Hhit : forall s bundle, s.(lru) = Some bundle ->
                   get_cached_models s = (s, Ok bundle)).
  { intros s bundle Hs. unfold get_cached_models. now rewrite Hs. }
  split; [apply Hhit|]. split.
  - intros Hnone st' bundle Hcall. unfold get_cached_models in Hcall.
    rewrite Hnone in Hcall.
    destruct (get_cached_models_body st) as [st1 [b|e]]; [|discriminate].
    injection Hcall as <- <-. split; [reflexivity|].
    now apply Hhit.
  - intros Hnone st' e Hcall. unfold get_cached_models in Hcall.
    rewrite Hnone in Hcall.
    destruct (get_cached_models_body_init st) as [Hlru _].
    destruct (get_cached_models_body st) as [st1 [b|e1]]; [discriminate|].
    injection Hcall as <- <-. cbn [fst] in Hlru.
    assert (Hst1 : st1.(lru) = None) by congruence.
    split; [exact Hst1|].
    unfold get_cached_models. rewrite Hst1. split; [reflexivity|].
    destruct (get_cached_models_body_init st1) as [_ Hcount].
    destruct (get_cached_models_body st1) as [st2 [b|e2]]; exact Hcount.
Qed.

End CacheFacts.

Lemma cache_keeps_success_only_witness :
  exists e bundle,
    get_cached_models (H := flaky) fresh = (after_failed_init, Raise e)
    /\ after_failed_init.(lru) = None
    /\ get_cached_models (H := flaky) after_failed_init
       = (after_second_init, Ok bundle)
    /\ after_second_init.(lru) = Some bundle
    /\ get_cached_models (H := flaky) after_second_init
       = (after_second_init, Ok bundle).
Proof.
  assert (E1 : get_cached_models (H := flaky) fresh
               = (after_failed_init,
                  Raise (Exception "download of buffalo_l failed")))
    by (vm_compute; reflexivity).
  assert (E2 : get_cached_models (H := flaky) after_failed_init
               = (after_second_init,
                  Ok (buffalo_l, {| loaded_from := "inswapper_128" |})))
    by (vm_compute; reflexivity).
  destruct (cache_keeps_success_only (H := flaky) fresh)
    as (_ & _ & Hfailure).
  destruct (Hfailure eq_refl _ _ E1) as (Hempty & _ & _).
  destruct (cache_keeps_success_only (H := flaky) after_failed_init)
    as (_ & Hsuccess & _).
  destruct (Hsuccess Hempty _ _ E2) as (Hstored & Hagain).
  eauto 10.
Defined.

(** ** The request pipeline *)

Section PipelineFacts.
Context `{Collaborators}.

Lemma keeps_download_image url : keeps ingest_event (download_image url).
Proof.
  unfold download_image. apply keeps_try_except.
  - unfold download_image_try.
    apply keeps_bind; [intros st; apply ext_refl|]. intros response.
    apply keeps_bind; [now apply keeps_emit|]. intros _.
    apply keeps_bind; [apply keeps_lift|]. intros _.
    apply keeps_bind; [apply keeps_lift|]. intros _.
    apply keeps_bind; [now apply keeps_emit|]. intros _.
    apply keeps_bind; [apply keeps_lift|]. intros image.
    apply keeps_lift.
  - intros e. destruct e; apply keeps_raise.
Qed.

Lemma keeps_detect image : keeps is_locator_call (detect image).
Proof.
  unfold detect. apply keeps_bind; [now apply keeps_emit|].
  intros _ st. apply ext_refl.
Qed.

Lemma keeps_image_to_base64 allowed image :
  keeps allowed (image_to_base64 image).
Proof.
  unfold image_to_base64. apply keeps_try_except; [apply keeps_lift|].
  intros e. apply keeps_raise.
Qed.

Lemma ext_count (p allowed : Event -> bool) st st' :
  (forall e, allowed e = true -> p e = false) ->
  ext allowed st st' -> count p st'.(log) = count p st.(log).
Proof.
  intros Hdisj (_ & _ & _ & evs & E & F).
  rewrite E, count_app, (count_none p allowed evs Hdisj F). lia.
Qed.

Lemma ingest_not_swapper e : ingest_event e = true -> not_swapper_call e = true.
Proof. now destruct e. Qed.

Lemma locator_not_swapper e :
  is_locator_call e = true -> not_swapper_call e = true.
Proof. now destruct e. Qed.

Lemma not_swapper_disjoint e :
  not_swapper_call e = true -> is_swapper_call e = false.
Proof. unfold not_swapper_call. now destruct (is_swapper_call e). Qed.

Lemma ingest_not_locator e : ingest_event e = true -> is_locator_call e = false.
Proof. now destruct e. Qed.

Lemma get_face_below_one faces i :
  i < 1 ->
  get_face faces i
  = Raise (HTTPException 400
             (face_index_message (Z.of_nat (length faces)) i)).
Proof.
  intros Hi. unfold get_face.
  destruct (Z.ltb_spec i 1) as [_|?]; [|lia].
  now rewrite orb_true_r.
Qed.

(** C9, as the code has it.  A request whose [source_index] is below 1
    always fails and never reaches the swapper engine.  The index is
    looked at only in the selection stage: when the engines are
    initialized and both images were fetched and scanned, the request
    fails there with the 400 error of [get_face], after the locator
    engine has run on both images. *)
Theorem bad_source_index_rejected_at_select
    (source_url target_url : string) (source_index target_index : Z)
    (st : State) :
  source_index < 1 ->
  let run :=
    perform_face_swap_logic source_url target_url
      source_index target_index st in
  raised run.2 = true
  /\ count is_swapper_call run.1.(log) = count is_swapper_call st.(log)
  /\ forall app model st1 source_image st2 target_image
            st3 source_faces st4 target_faces,
       st.(face_analysis_app) = Some app ->
       st.(swapper_model) = Some model ->
       download_image source_url st = (st1, Ok source_image) ->
       download_image target_url st1 = (st2, Ok target_image) ->
       detect source_image st2 = (st3, Ok source_faces) ->
       detect target_image st3 = (st4, Ok target_faces) ->
       run = (st4, Raise (HTTPException 400
                (face_index_message (Z.of_nat (length source_faces))
                   source_index)))
       /\ count is_locator_call st4.(log)
          = (count is_locator_call st.(log) + 2)%nat.
Proof.
  intros Hidx run.
  assert (Hrun : raised run.2 = true /\ ext not_swapper_call st run.1).
  { unfold run, perform_face_swap_logic.
    destruct (face_analysis_app st) as [app|];
      [|split; [reflexivity | apply ext_refl]].
    destruct (swapper_model st) as [model|];
      [|split; [reflexivity | apply ext_refl]].
    unfold bind.
    pose proof (keeps_download_image source_url st) as H1.
    apply (ext_weaken _ _ _ _ ingest_not_swapper) in H1.
    destruct (download_image source_url st) as [st1 [source_image|e]];
      cbn [fst snd] in *; [|now split].
    pose proof (keeps_download_image target_url st1) as H2.
    apply (ext_weaken _ _ _ _ ingest_not_swapper) in H2.
    destruct (download_image target_url st1) as [st2 [target_image|e]];
      cbn [fst snd] in *; [|split; [reflexivity | eapply ext_trans; eassumption]].
    pose proof (keeps_detect source_image st2) as H3.
    apply (ext_weaken _ _ _ _ locator_not_swapper) in H3.
    destruct (detect source_image st2) as [st3 [source_faces|e]];
      cbn [fst snd] in *;
      [|split; [reflexivity | repeat (eapply ext_trans; [eassumption|]);
                              apply ext_refl]].
    pose proof (keeps_detect target_image st3) as H4.
    apply (ext_weaken _ _ _ _ locator_not_swapper) in H4.
    destruct (detect target_image st3) as [st4 [target_faces|e]];
      cbn [fst snd] in *;
      [|split; [reflexivity | repeat (eapply ext_trans; [eassumption|]);
                              apply ext_refl]].
    unfold lift. rewrite (get_face_below_one _ _ Hidx). cbn [fst snd].
    split; [reflexivity|].
    repeat (eapply ext_trans; [eassumption|]). apply ext_refl. }
  destruct Hrun as [Hraised Hext]. split; [exact Hraised|].
  split; [exact (ext_count _ _ _ _ not_swapper_disjoint Hext)|].
  intros app model st1 source_image st2 target_image st3 source_faces
         st4 target_faces Happ Hmodel E1 E2 E3 E4.
  split.
  - unfold run, perform_face_swap_logic. rewrite Happ, Hmodel.
    unfold bind. rewrite E1, E2, E3, E4. unfold lift.
    rewrite (get_face_below_one _ _ Hidx), sort_faces_length. reflexivity.
  - pose proof (keeps_download_image source_url st) as H1.
    pose proof (keeps_download_image target_url st1) as H2.
    rewrite E1 in H1. rewrite E2 in H2. cbn [fst] in *.
    rewrite <- (ext_count is_locator_call _ _ _ ingest_not_locator H1).
    rewrite <- (ext_count is_locator_call _ _ _ ingest_not_locator H2).
    unfold detect, bind, emit in E3, E4.
    injection E3 as <- _. injection E4 as <- _. cbn [log].
    rewrite !count_app.
    change (count is_locator_call [FaceAnalysisGet source_image]) with 1%nat.
    change (count is_locator_call [FaceAnalysisGet target_image]) with 1%nat.
    lia.
Qed.

End PipelineFacts.

(** C9 as stated fails: with index 0 the locator engine has been called
    on both images by the time the request is turned down. *)
Lemma locator_runs_before_index_check :
  let run := perform_face_swap_logic "source" "target" 0 1 ready in
  run.2 = Raise (HTTPException 400
            "The image includes only 3 faces, however, you asked for face 0")
  /\ count is_locator_call ready.(log) = 0%nat
  /\ count is_locator_call run.1.(log) = 2%nat.
Proof. repeat split; vm_compute; reflexivity. Qed.

Lemma bad_source_index_rejected_at_select_witness :
  raised (perform_face_swap_logic "source" "target" 0 1 ready).2 = true
  /\ count is_swapper_call
       (perform_face_swap_logic "source" "target" 0 1 ready).1.(log)
     = count is_swapper_call ready.(log).
Proof.
  destruct (bad_source_index_rejected_at_select
              "source" "target" 0 1 ready ltac:(lia)) as (Hr & Hs & _).
  split; [exact Hr | exact Hs].
Defined.

(** ** Manual repair *)

Section RepairEndpointFacts.
Context `{Collaborators}.

Lemma ext_no_event st st' :
  ext no_event st st' ->
  st'.(lru) = st.(lru) /\ st'.(face_analysis_app) = st.(face_analysis_app)
  /\ st'.(swapper_model) = st.(swapper_model) /\ st'.(log) = st.(log).
Proof.
  intros (L & A & S & evs & E & F). repeat split; try assumption.
  destruct F as [|e r He _]; [now rewrite app_nil_r in E | discriminate He].
Qed.

Lemma fix_corrupted_model_returns model_path st :
  exists ok, (fix_corrupted_model model_path st).2 = Ok ok.
Proof.
  unfold fix_corrupted_model, try_except.
  destruct (fix_corrupted_model_try model_path st) as [st' [ok|e]];
    cbn [snd ret]; eauto.
Qed.

(** C7, as the code has it.  [/fix-model] runs the repair on
    [inswapper_128.onnx] and makes no call to an engine.  When the repair
    succeeds it empties the cache slot and clears both globals without
    initializing anything; from then on every swap request is answered
    with the 500 error "Models not initialized", and the engines come
    back only when [get_cached_models] is run again (by [prepare_app], at
    start-up), which then initializes from scratch.  When the repair
    fails the cache slot and the globals stay as they were. *)
Theorem manual_repair_invalidates (st : State) :
  let run := fix_model_endpoint st in
  let repaired := fix_corrupted_model "inswapper_128.onnx" st in
  run.1.(fs) = repaired.1.(fs)
  /\ run.1.(log) = st.(log)
  /\ exists reply,
       run.2 = Ok reply
       /\ repaired.2 = Ok reply.(fix_success)
       /\ (reply.(fix_success) = true ->
           run.1.(lru) = None
           /\ run.1.(face_analysis_app) = None
           /\ run.1.(swapper_model) = None
           /\ (forall source_url target_url source_index target_index,
                 perform_face_swap_logic source_url target_url
                   source_index target_index run.1
                 = (run.1, Raise (HTTPException 500 "Models not initialized")))
           /\ get_cached_models run.1
              = match get_cached_models_body run.1 with
                | (st', Ok bundle) => ((set_lru (Some bundle) st').1, Ok bundle)
                | (st', Raise e) => (st', Raise e)
                end)
       /\ (reply.(fix_success) = false ->
           run.1.(lru) = st.(lru)
           /\ run.1.(face_analysis_app) = st.(face_analysis_app)
           /\ run.1.(swapper_model) = st.(swapper_model)).
Proof.
  intros run repaired. unfold run, fix_model_endpoint. fold repaired.
  destruct (ext_no_event _ _
              (keeps_fix_corrupted_model no_event "inswapper_128.onnx" st))
    as (L & A & S & E).
  destruct (fix_corrupted_model_returns "inswapper_128.onnx" st) as [ok Hok].
  fold repaired in L, A, S, E, Hok.
  destruct repaired as [st' r]. cbn [fst snd] in *. subst r.
  destruct ok; cbn [fst snd fs log lru face_analysis_app swapper_model
                    cache_clear set_lru set_globals].
  - split; [reflexivity|]. split; [exact E|].
    eexists. split; [reflexivity|]. cbn [fix_success].
    split; [reflexivity|]. split; [|discriminate].
    intros _. repeat split.
  - split; [reflexivity|]. split; [exact E|].
    eexists. split; [reflexivity|]. cbn [fix_success].
    split; [reflexivity|]. split; [discriminate|].
    intros _. auto.
Qed.

End RepairEndpointFacts.

(** C7 as stated fails: after a successful manual repair the next swap
    request is not served by a lazy re-initialization; it is turned down
    with "Models not initialized" and no engine is constructed. *)
Lemma request_after_manual_repair_fails :
  let repaired := fix_model_endpoint ready in
  repaired.2
  = Ok {| fix_success := true;
          fix_message :=
            "Model fix completed. Restart the application to reload models." |}
  /\ perform_face_swap_logic "source" "target" 1 1 repaired.1
     = (repaired.1, Raise (HTTPException 500 "Models not initialized"))
  /\ count is_engine_init repaired.1.(log) = count is_engine_init ready.(log).
Proof. repeat split; vm_compute; reflexivity. Qed.

Lemma manual_repair_invalidates_witness :
  (fix_model_endpoint ready).1.(lru) = None
  /\ perform_face_swap_logic "source" "target" 1 1 (fix_model_endpoint ready).1
     = ((fix_model_endpoint ready).1,
        Raise (HTTPException 500 "Models not initialized")).
Proof.
  destruct (manual_repair_invalidates ready)
    as (_ & _ & reply & Hreply & Hrepaired & Hok & _).
  assert (Hs : reply.(fix_success) = true).
  { assert (E : (fix_corrupted_model "inswapper_128.onnx" ready).2 = Ok true)
      by (vm_compute; reflexivity).
    rewrite E in Hrepaired. now injection Hrepaired as <-. }
  destruct (Hok Hs) as (Hlru & _ & _ & Hreq & _).
  split; [exact Hlru | apply Hreq].
Defined.

(** ** Names *)

#[local] Arguments String.append !s1 s2 / : simpl nomatch.







Section NameFacts.
Context `{Collaborators}.




End NameFacts.

(** ** ModelStore *)

Section StoreFacts.
Context `{Collaborators}.














End StoreFacts.

Section EmptyModel.
Context `{Collaborators}.



End EmptyModel.



(** * Further properties of the code *)

(** ** FaceSelector *)

(** X1.  [sort_faces] returns the detections it was given, each exactly
    once, ordered by their left edge from left to right. *)
Theorem sort_faces_orders (faces : list Face) :
  Permutation (sort_faces faces) faces
  /\ StronglySorted left_of (sort_faces faces)
  /\ length (sort_faces faces) = length faces.
Proof.
  split; [apply sort_faces_perm|].
  split; [apply sort_faces_sorted | apply sort_faces_length].
Qed.

Lemma insert_face_at_left k x l :
  filter (fun f => at_left k f = true) (insert_face x l)
  = filter (fun f => at_left k f = true) (x :: l).
Proof.
  induction l as [|y r IH]; [reflexivity|]. cbn [insert_face].
  destruct (Qlt_le_dec (bbox0 y) (bbox0 x)) as [Hlt|_]; [|reflexivity].
  rewrite (filter_cons _ y), IH, !(filter_cons _ x), (filter_cons _ y).
  destruct (decide (at_left k y = true)) as [Hy|_];
    destruct (decide (at_left k x = true)) as [Hx|_]; try reflexivity.
  exfalso. unfold at_left in Hx, Hy.
  apply Qeq_bool_iff in Hx, Hy.
  apply (Qlt_irrefl k). rewrite <- Hy at 1. now rewrite <- Hx.
Qed.

(** X2.  The sort is stable: among faces with the same left edge the
    order of detection is kept. *)
Theorem sort_faces_stable (k : Q) (faces : list Face) :
  filter (fun f => at_left k f = true) (sort_faces faces)
  = filter (fun f => at_left k f = true) faces.
Proof.
  induction faces as [|x r IH]; [reflexivity|].
  cbn [sort_faces foldr]. fold (sort_faces r).
  rewrite insert_face_at_left, !(filter_cons _ x), IH. reflexivity.
Qed.

(** X3.  Sorting is idempotent: sorting an ordered list of faces returns
    it as it is. *)
Theorem sort_faces_twice (faces : list Face) :
  sort_faces (sort_faces faces) = sort_faces faces.
Proof.
  pose proof (sort_faces_sorted faces) as Hsorted.
  induction Hsorted as [|y r Hr IH Hy]; [reflexivity|].
  cbn [sort_faces foldr]. fold (sort_faces r). rewrite IH.
  destruct Hr as [|z r' Hr' Hz]; [reflexivity|]. cbn [insert_face].
  destruct (Qlt_le_dec (bbox0 z) (bbox0 y)) as [Hlt|_]; [|reflexivity].
  apply Forall_cons in Hy as [Hyz _]. unfold left_of in Hyz.
  exfalso. eapply Qlt_not_le; eassumption.
Qed.

(** ** Image ingest *)

Section IngestMore.
Context `{Collaborators}.

(** X4.  Whatever [validate_and_resize_image] returns for the default
    cap fits the cap: no side of the result exceeds 1024 px (images of
    up to 4096 px a side), and passing the result through the function
    again returns it unchanged. *)
Theorem resized_image_within_cap (image_array out : ndarray) :
  1 <= image_array.(height) <= 4096 ->
  1 <= image_array.(width) <= 4096 ->
  validate_and_resize_image image_array 1024 = Ok out ->
  Z.max out.(height) out.(width) <= 1024
  /\ validate_and_resize_image out 1024 = Ok out.
Proof.
  intros Hh Hw Hres.
  assert (Hfix : forall a, Z.max a.(height) a.(width) <= 1024 ->
                   validate_and_resize_image a 1024 = Ok a).
  { intros a Ha. unfold validate_and_resize_image.
    destruct (Z.gtb_spec (Z.max (height a) (width a)) 1024); [lia|].
    reflexivity. }
  assert (Hcap : Z.max out.(height) out.(width) <= 1024);
    [|split; [exact Hcap | now apply Hfix]].
  unfold validate_and_resize_image in Hres.
  set (m := Z.max (height image_array) (width image_array)) in *.
  destruct (Z.gtb_spec m 1024) as [Hgt|Hle].
  - destruct (ScaleFacts.scaled_side m (height image_array)
                ltac:(lia) ltac:(lia)) as (nh & Eh & Hnh & _).
    destruct (ScaleFacts.scaled_side m (width image_array)
                ltac:(lia) ltac:(lia)) as (nw & Ew & Hnw & _).
    rewrite Eh, Ew in Hres. unfold pil_resize in Hres.
    destruct ((nw <? 1) || (nh <? 1)); [discriminate|].
    injection Hres as <-. cbn [height width]. lia.
  - injection Hres as <-. exact Hle.
Qed.

(** X5.  The size check of [download_image] looks at the declared
    length only.  It lets a response through exactly when the header is
    absent, empty, or reads as an integer of at most 10 MiB (10485760,
    the bound included) that is not so negative that the division
    overflows. *)
Theorem content_length_gate (response : Response) :
  check_content_length response = Ok tt
  <-> response.(content_length) = None
      \/ response.(content_length) = Some ""
      \/ exists declared n,
           response.(content_length) = Some declared
           /\ py_int declared = Some n
           /\ - truediv_overflow_bound < n <= 10485760.
Proof.
  unfold check_content_length.
  assert (Hb : 10485760 < truediv_overflow_bound) by (vm_compute; reflexivity).
  destruct (content_length response) as [declared|]; [|split; auto].
  destruct (String.eqb_spec declared "") as [->|Hne].
  { split; auto. }
  destruct (py_int declared) as [n|] eqn:En.
  - destruct (Z.leb_spec truediv_overflow_bound (Z.abs n)) as [Hov|Hok].
    + split; [discriminate|].
      intros [?|[[= ?]|(d & n' & [= <-] & E & Hn)]]; try congruence.
      rewrite En in E. injection E as <-. lia.
    + change (10 * (1024 * 1024)) with 10485760.
      destruct (Z.ltb_spec 10485760 n) as [Hbig|Hsmall].
      * split; [discriminate|].
        intros [?|[[= ?]|(d & n' & [= <-] & E & Hn)]]; try congruence.
        rewrite En in E. injection E as <-. lia.
      * split; [|reflexivity]. intros _. right. right.
        exists declared, n. repeat split; try assumption; lia.
  - split; [discriminate|].
    intros [?|[[= ?]|(d & n' & [= <-] & E & Hn)]]; congruence.
Qed.

(** X6.  [download_image] fails with an [HTTPException] only, with status
    400 or 500.  It is a 400 whenever the HTTP exchange itself failed,
    and, since the image decoder raises no [requests] exception, a 500 in
    every other case: a refused size, bytes that are no image, a resize
    that fails. *)
Theorem download_image_failures (url : string) (st : State) (e : exn) :
  (forall bytes msg, image_open bytes <> Raise (RequestException msg)) ->
  (download_image url st).2 = Raise e ->
  exists detail,
    e = HTTPException (if request_failed url st then 400 else 500) detail.
Proof.
  intros Hpil. unfold download_image, try_except, download_image_try,
    request_failed, bind, lift, emit.
  destruct (requests_get (log st) url) as [response|e0].
  - unfold raise_for_status.
    destruct ((400 <=? status response) && (status response <? 600)).
    { cbn [snd raise]. intros [= <-]. eauto. }
    destruct (check_content_length response) as [[]|e1] eqn:Ecl.
    + destruct (image_open (content response)) as [image|e2] eqn:Eopen.
      * match goal with
        | |- context [validate_and_resize_image ?a 1024] =>
            destruct (validate_and_resize_image a 1024) as [out|e3] eqn:Er
        end.
        -- discriminate.
        -- assert (exists msg, e3 = Exception msg) as [msg ->].
           { unfold validate_and_resize_image, pil_resize in Er.
             repeat match type of Er with
                    | context [if ?c then _ else _] => destruct c
                    | context [match ?x with _ => _ end] => destruct x
                    end; try discriminate; injection Er as <-; eauto. }
           cbn [snd raise]. intros [= <-]. eauto.
      * destruct e2 as [sc d|msg|msg];
          [| exfalso; exact (Hpil _ _ Eopen) |];
          cbn [snd raise]; intros [= <-]; eauto.
    + assert (exists sc msg, e1 = Exception msg \/ e1 = HTTPException sc msg)
        as (sc & msg & [->| ->]).
      { unfold check_content_length in Ecl.
        repeat match type of Ecl with
               | context [if ?c then _ else _] => destruct c
               | context [match ?x with _ => _ end] => destruct x
               end; try discriminate; injection Ecl as <-;
          repeat eexists; eauto. Unshelve. all: exact 0 || exact "". }
      all: cbn [snd raise]; intros [= <-]; eauto.
  - destruct e0 as [sc d|msg|msg]; cbn [snd raise]; intros [= <-]; eauto.
Qed.

End IngestMore.

Lemma resized_image_within_cap_witness :
  Z.max 750 1024 <= 1024
  /\ validate_and_resize_image (image_of 750 1024) 1024
     = Ok (image_of 750 1024).
Proof.
  apply (resized_image_within_cap (image_of 3000 4096) (image_of 750 1024));
    [simpl; lia | simpl; lia | vm_compute; reflexivity].
Defined.

Lemma download_image_failures_witness :
  exists detail,
    HTTPException 500
      "Error processing image from big: 413: Image too large: 20.00 MB (max 10MB)"
    = HTTPException 500 detail.
Proof.
  destruct (download_image_failures "big" fresh
    (HTTPException 500
       "Error processing image from big: 413: Image too large: 20.00 MB (max 10MB)"))
    as [detail E].
  - intros bytes msg. discriminate.
  - vm_compute. reflexivity.
  - exists detail. exact E.
Defined.

(** ** ModelStore *)












Section RepairMore.
Context `{Collaborators}.











(** X7.  [fix_corrupted_model] never raises; it answers [True] or
    [False].  It talks to no engine and no library (the log is
    unchanged) and leaves the engine cache and the globals alone. *)
Theorem repair_is_local (model_path : string) (st : State) :
  let run := fix_corrupted_model model_path st in
  (exists ok, run.2 = Ok ok)
  /\ run.1.(log) = st.(log)
  /\ run.1.(lru) = st.(lru)
  /\ run.1.(face_analysis_app) = st.(face_analysis_app)
  /\ run.1.(swapper_model) = st.(swapper_model).
Proof.
  cbv zeta. split; [apply fix_corrupted_model_returns|].
  destruct (ext_no_event _ _
              (keeps_fix_corrupted_model no_event model_path st))
    as (L & A & S & E).
  auto.
Qed.




End RepairMore.

(** The two cases in which the file tree decides the outcome: a backup
    location that is a directory receives the copy inside it, and a
    cache location that is a regular file makes the repair answer
    [False], after the model file has already been removed. *)
Example repair_examples :
  (fix_corrupted_model "m"
     {| fs := {[ "/app/m" := "x"; "/app/m.backup/old" := "o" ]};
        log := []; lru := None;
        face_analysis_app := None; swapper_model := None |}).1.(fs)
  = {[ "/app/m.backup/m" := "x"; "/app/m.backup/old" := "o" ]}
  /\ fix_corrupted_model "inswapper_128.onnx"
       {| fs := {[ "/app/inswapper_128.onnx" := "";
                   "/root/.insightface/models" := "x" ]};
          log := []; lru := None;
          face_analysis_app := None; swapper_model := None |}
     = ({| fs := {[ "/app/inswapper_128.onnx.backup" := "";
                    "/root/.insightface/models" := "x" ]};
           log := []; lru := None;
           face_analysis_app := None; swapper_model := None |}, Ok false).
Proof. split; vm_compute; reflexivity. Qed.




Section ValidateMore.
Context `{Collaborators}.

(** X11.  [validate_onnx_model] never raises and changes nothing but the
    log.  For a path that does not exist it answers [False] without
    going to ONNX Runtime; it answers [True] only for an existing file
    whose bytes ONNX Runtime loads. *)
Theorem validate_is_sound (model_path : string) (st : State) :
  let run := validate_onnx_model model_path st in
  (path_exists st.(fs) model_path = false -> run = (st, Ok false))
  /\ (path_exists st.(fs) model_path = true ->
      exists valid,
        run = (logged st [OrtInferenceSession model_path], Ok valid)
        /\ (valid = true <->
            exists bytes, st.(fs) !! abspath model_path = Some bytes
                          /\ ort_loads bytes = true)).
Proof.
  cbv zeta. unfold validate_onnx_model. split; intros Hex; rewrite Hex.
  - reflexivity.
  - cbn [negb emit fs]. fold (logged st [OrtInferenceSession model_path]).
    destruct (fs st !! abspath model_path) as [bytes|].
    + exists (ort_loads bytes). split; [reflexivity|]. split.
      * intros Hv. eauto.
      * intros (b & [= <-] & Hb). exact Hb.
    + exists false. split; [reflexivity|]. split; [discriminate|].
      intros (b & Hb & _). discriminate Hb.
Qed.

End ValidateMore.

Lemma validate_is_sound_witness :
  validate_onnx_model "inswapper_128.onnx" fresh = (fresh, Ok false)
  /\ exists valid,
       validate_onnx_model "inswapper_128.onnx" empty_model_on_disk
       = (logged empty_model_on_disk
            [OrtInferenceSession "inswapper_128.onnx"], Ok valid).
Proof.
  split.
  - apply (validate_is_sound "inswapper_128.onnx" fresh).
    vm_compute. reflexivity.
  - destruct (validate_is_sound "inswapper_128.onnx" empty_model_on_disk)
      as [_ Hex].
    destruct Hex as (valid & E & _); [vm_compute; reflexivity|].
    exists valid. exact E.
Defined.

(** ** Loader and engine cache *)

Section LoaderMore.
Context `{Collaborators}.

(** X12.  The retry loop is bounded for every [max_retries]: the loader
    makes at most [max_retries] passes, all for its own variant; it
    raises only after exactly [max_retries] of them; and it returns
    [None] without raising exactly when [max_retries] is not positive,
    in which case it makes no pass at all. *)
Theorem loader_retries_bounded
    (model_path : string) (max_retries : Z) (st : State) :
  let run := load_swapper_model_with_recovery model_path max_retries st in
  exists evs,
    run.1.(log) = st.(log) ++ evs
    /\ Z.of_nat (attempts model_path evs) <= Z.max 0 max_retries
    /\ (forall q, q <> model_path -> attempts q evs = 0%nat)
    /\ (raised run.2 = true ->
        1 <= max_retries /\ Z.of_nat (attempts model_path evs) = max_retries)
    /\ (run.2 = Ok None <-> max_retries <= 0).
Proof.
  cbv zeta. destruct (Z.le_gt_cases max_retries 0) as [Hle|Hgt].
  - unfold load_swapper_model_with_recovery.
    replace (Z.to_nat max_retries) with 0%nat by lia.
    cbn [load_swapper_loop ret fst snd raised]. exists [].
    rewrite app_nil_r. split; [reflexivity|].
    split; [change (attempts model_path []) with 0%nat; lia|].
    split; [reflexivity|]. split; [discriminate|].
    split; [intros _; exact Hle | reflexivity].
  - destruct (load_swapper_model_with_recovery_log model_path max_retries st
                ltac:(lia)) as (_ & _ & _ & evs & E & N & O & R & Z0).
    exists evs. split; [exact E|]. split; [lia|]. split; [exact O|].
    split; [intros Hr; specialize (R Hr); lia|].
    split; [intros Hn; specialize (Z0 Hn); lia | lia].
Qed.

Lemma load_stage_log (model_path : string) (found : option string)
    (st : State) :
  let local := truthy found && path_exists st.(fs) (default "" found) in
  (load_stage model_path found st).1.1.(log)
  = st.(log)
    ++ [ModelZooGetModel
          (if local then default "" found else splitext_root model_path)
          (negb local)].
Proof.
  cbv zeta. unfold load_stage.
  destruct (truthy found && path_exists (fs st) (default "" found));
    cbv zeta; cbn [emit fst log fs];
    match goal with
    | |- context [model_zoo_get_model ?l ?f ?n ?d] =>
        destruct (model_zoo_get_model l f n d) as [f' o]
    end; destruct o; reflexivity.
Qed.

(** What one pass adds to the log, and the one case in which it asks
    for a local load. *)
Lemma load_attempt_events
    (model_path : string) (attempt max_retries : Z) (st : State)
    (p : string) :
  exists evs,
    (load_attempt model_path attempt max_retries st).1.1.(log)
    = st.(log) ++ evs
    /\ (ModelZooGetModel p false ∈ evs ->
        exists bytes,
          st.(fs) !! abspath p = Some bytes /\ ort_loads bytes = true).
Proof.
  unfold load_attempt.
  set (st1 := (emit (LoadAttempt model_path (attempt + 1) max_retries) st).1).
  set (found := locate (fs st1) model_path).
  assert (Hlog1 : log st1
                  = log st ++ [LoadAttempt model_path (attempt + 1) max_retries])
    by reflexivity.
  unfold validate_stage.
  destruct (truthy found && path_exists (fs st1) (default "" found)) eqn:Ec.
  - unfold validate_onnx_model.
    apply andb_true_iff in Ec as [Ht Hex]. rewrite Hex. cbn [negb].
    cbn [emit fst snd fs].
    destruct (fs st1 !! abspath (default "" found)) as [bytes|] eqn:Ebytes.
    + destruct (ort_loads bytes) eqn:Eort.
      * (* validated: loaded from the file *)
        rewrite load_stage_log. cbn [fs log]. rewrite Ht, Hex. cbn [andb negb].
        rewrite Hlog1, <- !app_assoc. eexists. split; [reflexivity|].
        cbn [app]. intros Hin.
        repeat (apply elem_of_cons in Hin as [Hin|Hin]; [try discriminate Hin|]);
          [|now apply elem_of_nil in Hin].
        injection Hin as ->. exists bytes. split; [exact Ebytes | exact Eort].
      * (* invalid: repaired, then downloaded *)
        match goal with
        | |- context [fix_corrupted_model ?q ?s] =>
            destruct (ext_no_event _ _
                        (keeps_fix_corrupted_model no_event q s))
              as (_ & _ & _ & El);
            destruct (fix_corrupted_model q s) as [st3 [[|]|e]]
        end; cbn [fst snd log] in *.
        -- rewrite load_stage_log. cbn [truthy andb negb]. rewrite El.
           rewrite Hlog1, <- !app_assoc. eexists. split; [reflexivity|].
           cbn [app]. intros Hin. exfalso.
           repeat (apply elem_of_cons in Hin as [Hin|Hin];
                   [discriminate Hin|]).
           now apply elem_of_nil in Hin.
        -- rewrite El, Hlog1, <- !app_assoc. eexists. split; [reflexivity|].
           cbn [app]. intros Hin. exfalso.
           repeat (apply elem_of_cons in Hin as [Hin|Hin];
                   [discriminate Hin|]).
           now apply elem_of_nil in Hin.
        -- rewrite El, Hlog1, <- !app_assoc. eexists. split; [reflexivity|].
           cbn [app]. intros Hin. exfalso.
           repeat (apply elem_of_cons in Hin as [Hin|Hin];
                   [discriminate Hin|]).
           now apply elem_of_nil in Hin.
    + match goal with
      | |- context [fix_corrupted_model ?q ?s] =>
          destruct (ext_no_event _ _
                      (keeps_fix_corrupted_model no_event q s))
            as (_ & _ & _ & El);
          destruct (fix_corrupted_model q s) as [st3 [[|]|e]]
      end; cbn [fst snd log] in *.
      * rewrite load_stage_log. cbn [truthy andb negb]. rewrite El.
        rewrite Hlog1, <- !app_assoc. eexists. split; [reflexivity|].
        cbn [app]. intros Hin. exfalso.
        repeat (apply elem_of_cons in Hin as [Hin|Hin];
                [discriminate Hin|]).
        now apply elem_of_nil in Hin.
      * rewrite El, Hlog1, <- !app_assoc. eexists. split; [reflexivity|].
        cbn [app]. intros Hin. exfalso.
        repeat (apply elem_of_cons in Hin as [Hin|Hin];
                [discriminate Hin|]).
        now apply elem_of_nil in Hin.
      * rewrite El, Hlog1, <- !app_assoc. eexists. split; [reflexivity|].
        cbn [app]. intros Hin. exfalso.
        repeat (apply elem_of_cons in Hin as [Hin|Hin];
                [discriminate Hin|]).
        now apply elem_of_nil in Hin.
  - rewrite load_stage_log. rewrite Ec. cbn [negb].
    rewrite Hlog1, <- !app_assoc. eexists. split; [reflexivity|].
    cbn [app]. intros Hin. exfalso.
    repeat (apply elem_of_cons in Hin as [Hin|Hin]; [discriminate Hin|]).
    now apply elem_of_nil in Hin.
Qed.

(** X13.  A file is handed to the model zoo for a local load only after
    it passed validation in the same pass: if, among the calls a pass
    adds to the log (whatever the log held before), there is
    [get_model(p, download=False)], then at the start of the pass [p]
    held a file whose bytes ONNX Runtime loads. *)
Theorem local_load_only_after_validation
    (model_path : string) (attempt max_retries : Z) (st : State)
    (p : string) (evs : list Event) :
  (load_attempt model_path attempt max_retries st).1.1.(log)
  = st.(log) ++ evs ->
  ModelZooGetModel p false ∈ evs ->
  exists bytes,
    st.(fs) !! abspath p = Some bytes /\ ort_loads bytes = true.
Proof.
  intros Hlog Hin.
  destruct (load_attempt_events model_path attempt max_retries st p)
    as (evs' & Hlog' & Hvalid).
  rewrite Hlog' in Hlog. apply app_inv_head in Hlog. subst evs'.
  now apply Hvalid.
Qed.

End LoaderMore.

Lemma local_load_only_after_validation_witness :
  exists bytes,
    valid_model_on_disk.(fs) !! "/app/inswapper_128.onnx" = Some bytes
    /\ negb (String.eqb bytes "") = true.
Proof.
  pose proof (local_load_only_after_validation "inswapper_128.onnx" 1 3
                (logged valid_model_on_disk
                   [ModelZooGetModel "inswapper_128.onnx" false])
                "inswapper_128.onnx"
                [ LoadAttempt "inswapper_128.onnx" 2 3;
                  OrtInferenceSession "inswapper_128.onnx";
                  ModelZooGetModel "inswapper_128.onnx" false ]) as Hlocal.
  apply Hlocal.
  - vm_compute. reflexivity.
  - apply list_elem_of_In. vm_compute. auto.
Defined.

Section EngineMore.
Context `{Collaborators}.

Lemma initialization_frame_aux (st : State) :
  (get_cached_models_body st).1.(lru) = st.(lru)
  /\ (get_cached_models_body st).1.(face_analysis_app)
     = st.(face_analysis_app)
  /\ (get_cached_models_body st).1.(swapper_model) = st.(swapper_model).
Proof.
  destruct (get_cached_models_body_frame st) as (L & A & S & _).
  cbn [emit fst lru face_analysis_app swapper_model] in *. auto.
Qed.

(** X14.  One run of the initialization leaves the cache slot and the
    globals alone, constructs the locator exactly once and before
    anything else, and afterwards only loads swapper variants.  When the
    construction of the locator fails the run raises that error at once,
    without an attempt on any variant. *)
Theorem initialization_frame (st : State) :
  let run := get_cached_models_body st in
  run.1.(lru) = st.(lru)
  /\ run.1.(face_analysis_app) = st.(face_analysis_app)
  /\ run.1.(swapper_model) = st.(swapper_model)
  /\ (exists evs,
        run.1.(log) = st.(log) ++ FaceAnalysisPrepare :: evs
        /\ Forall (fun e => loader_event model_paths e = true) evs)
  /\ (forall f msg,
        face_analysis_prepare (st.(log) ++ [FaceAnalysisPrepare]) st.(fs)
        = (f, Some msg) ->
        run.2 = Raise (Exception msg)
        /\ run.1.(log) = st.(log) ++ [FaceAnalysisPrepare]).
Proof.
  cbv zeta.
  destruct (get_cached_models_body_frame st) as (L & A & S & evs & E & F).
  cbn [emit fst lru log face_analysis_app swapper_model] in *.
  repeat (split; [assumption|]). split.
  - exists evs. split; [|exact F]. rewrite E. now rewrite <- app_assoc.
  - intros f msg Hfail. unfold get_cached_models_body.
    cbn [emit fst log fs]. rewrite Hfail. split; reflexivity.
Qed.

Lemma prepare_app_hit (st : State) app swapper :
  st.(lru) = Some (app, swapper) ->
  st.(face_analysis_app) = Some app ->
  st.(swapper_model) = Some swapper ->
  prepare_app st = (st, Ok (app, swapper)).
Proof.
  destruct st as [f l c a s]. cbn. intros -> -> ->. reflexivity.
Qed.

(** X15.  [prepare_app] publishes what it cached: when it returns, both
    globals hold the engines of the returned bundle, the cache slot holds
    that bundle, and calling it again returns the same bundle without
    changing anything (no engine is built twice).  When it raises, the
    globals and the cache slot are as they were. *)
Theorem prepare_app_publishes (st : State) :
  (forall st' app swapper,
     prepare_app st = (st', Ok (app, swapper)) ->
     st'.(face_analysis_app) = Some app
     /\ st'.(swapper_model) = Some swapper
     /\ st'.(lru) = Some (app, swapper)
     /\ prepare_app st' = (st', Ok (app, swapper)))
  /\ (forall st' e,
        prepare_app st = (st', Raise e) ->
        st'.(face_analysis_app) = st.(face_analysis_app)
        /\ st'.(swapper_model) = st.(swapper_model)
        /\ st'.(lru) = st.(lru)).
Proof.
  split.
  - intros st' app swapper Hp. unfold prepare_app, get_cached_models in Hp.
    destruct (lru st) as [bundle|] eqn:El.
    + destruct bundle as [a s]. injection Hp as <- <- <-.
      cbn [set_globals fst face_analysis_app swapper_model lru].
      repeat (split; [reflexivity || assumption|]).
      now apply prepare_app_hit.
    + destruct (get_cached_models_body st) as [st1 [[a s]|e]];
        [|discriminate].
      cbn [set_lru fst] in Hp. injection Hp as <- <- <-.
      cbn [set_globals fst face_analysis_app swapper_model lru].
      repeat (split; [reflexivity|]).
      now apply prepare_app_hit.
  - intros st' e Hp. unfold prepare_app, get_cached_models in Hp.
    destruct (lru st) as [[a s]|] eqn:El; [discriminate|].
    destruct (initialization_frame_aux st) as (L & A & S).
    destruct (get_cached_models_body st) as [st1 [[a s]|e1]];
      [discriminate|].
    injection Hp as <- <-. cbn [fst] in *. repeat split; congruence.
Qed.

End EngineMore.

Lemma initialization_frame_witness :
  (get_cached_models_body (H := flaky) fresh).2
  = Raise (Exception "download of buffalo_l failed")
  /\ (get_cached_models_body (H := flaky) fresh).1.(log)
     = [FaceAnalysisPrepare].
Proof.
  destruct (initialization_frame (H := flaky) fresh)
    as (_ & _ & _ & _ & Hfail).
  apply (Hfail ∅ "download of buffalo_l failed"). reflexivity.
Defined.

Lemma prepare_app_publishes_witness :
  ready.(face_analysis_app) = Some buffalo_l
  /\ ready.(swapper_model) = Some {| loaded_from := "inswapper_128" |}
  /\ ready.(lru) = Some (buffalo_l, {| loaded_from := "inswapper_128" |})
  /\ prepare_app ready
     = (ready, Ok (buffalo_l, {| loaded_from := "inswapper_128" |})).
Proof.
  destruct (prepare_app_publishes fresh) as [Hok _].
  apply Hok. vm_compute. reflexivity.
Defined.

(** ** The request pipeline and the endpoints *)

Lemma get_face_ok faces i face :
  get_face faces i = Ok face ->
  1 <= i <= Z.of_nat (length faces)
  /\ faces !! Z.to_nat (i - 1) = Some face.
Proof.
  unfold get_face.
  destruct (Z.ltb_spec (Z.of_nat (length faces)) i);
    destruct (Z.ltb_spec i 1); cbn [orb]; try discriminate.
  destruct (faces !! Z.to_nat (i - 1)) as [f|]; [|discriminate].
  intros [= <-]. split; [lia | reflexivity].
Qed.

Lemma get_face_in_range faces i :
  1 <= i <= Z.of_nat (length faces) ->
  exists face, get_face faces i = Ok face.
Proof.
  intros Hi. unfold get_face.
  destruct (Z.ltb_spec (Z.of_nat (length faces)) i); [lia|].
  destruct (Z.ltb_spec i 1); [lia|]. cbn [orb].
  destruct (lookup_lt_is_Some_2 faces (Z.to_nat (i - 1)) ltac:(lia))
    as [face ->].
  eauto.
Qed.

Lemma get_face_out_of_range faces i :
  i < 1 \/ Z.of_nat (length faces) < i ->
  get_face faces i
  = Raise (HTTPException 400
             (face_index_message (Z.of_nat (length faces)) i)).
Proof.
  intros Hi. unfold get_face.
  replace ((Z.of_nat (length faces) <? i) || (i <? 1)) with true;
    [reflexivity|].
  symmetry. apply orb_true_iff.
  destruct Hi; [right | left]; apply Z.ltb_lt; lia.
Qed.

Section PipelineMore.
Context `{Collaborators}.

Lemma logged_logged st l1 l2 :
  logged (logged st l1) l2 = logged st (l1 ++ l2).
Proof. unfold logged. cbn. now rewrite app_assoc. Qed.

Lemma download_image_ok url st st' image :
  download_image url st = (st', Ok image) ->
  exists n, st' = logged st [RequestsGet url n; ImageOpen n].
Proof.
  unfold download_image, try_except, download_image_try, bind, lift, emit.
  destruct (requests_get (log st) url) as [response|e0];
    [|destruct e0; discriminate].
  cbn [fst snd fs log lru face_analysis_app swapper_model].
  destruct (raise_for_status response) as [[]|e1];
    [|destruct e1; discriminate].
  destruct (check_content_length response) as [[]|e2];
    [|destruct e2; discriminate].
  cbn [fst snd fs log lru face_analysis_app swapper_model].
  destruct (image_open (content response)) as [img|e3];
    [|destruct e3; discriminate].
  match goal with
  | |- context [validate_and_resize_image ?a 1024] =>
      destruct (validate_and_resize_image a 1024) as [out|e4];
        [|destruct e4; discriminate]
  end.
  intros [= <- _]. exists (String.length (content response)).
  unfold logged. now rewrite <- app_assoc.
Qed.

(** X16.  A request that succeeds ran the five stages in order, each on
    the state the previous one left: it fetched the source and then the
    target, ran the locator on the source image and then on the target
    image, and ran the swapper once.  The faces used are the ones at the
    requested positions of the two detection results after sorting; the
    swapper was given the target image, the target face as the face to
    replace and the source face as the identity; and the answer is the
    encoding of what it returned.  Nothing else was called: the log grew
    by these seven calls. *)
Theorem successful_request_trace
    (source_url target_url : string) (source_index target_index : Z)
    (st st' : State) (result_base64 : string) :
  perform_face_swap_logic source_url target_url source_index target_index st
  = (st', Ok result_base64) ->
  exists st1 st2 st3 st4 n1 n2 source_image target_image
         detected_source detected_target source_face target_face
         model result_image,
    st.(swapper_model) = Some model
    /\ download_image source_url st = (st1, Ok source_image)
    /\ download_image target_url st1 = (st2, Ok target_image)
    /\ detect source_image st2 = (st3, Ok detected_source)
    /\ detect target_image st3 = (st4, Ok detected_target)
    /\ sort_faces detected_source !! Z.to_nat (source_index - 1)
       = Some source_face
    /\ 1 <= source_index <= Z.of_nat (length detected_source)
    /\ sort_faces detected_target !! Z.to_nat (target_index - 1)
       = Some target_face
    /\ 1 <= target_index <= Z.of_nat (length detected_target)
    /\ swap model target_image target_face source_face st4
       = (st', Ok result_image)
    /\ png_base64 result_image = Ok result_base64
    /\ st' = logged st [ RequestsGet source_url n1; ImageOpen n1;
                         RequestsGet target_url n2; ImageOpen n2;
                         FaceAnalysisGet source_image;
                         FaceAnalysisGet target_image;
                         SwapperGet target_image ].
Proof.
  unfold perform_face_swap_logic.
  destruct (face_analysis_app st) as [app|]; [|discriminate].
  destruct (swapper_model st) as [model|] eqn:Emodel; [|discriminate].
  unfold bind.
  destruct (download_image source_url st) as [st1 [source_image|e]] eqn:E1;
    [|discriminate].
  destruct (download_image_ok _ _ _ _ E1) as [n1 L1].
  destruct (download_image target_url st1) as [st2 [target_image|e]] eqn:E2;
    [|discriminate].
  destruct (download_image_ok _ _ _ _ E2) as [n2 L2].
  destruct (detect source_image st2) as [st3 [ds|e]] eqn:E3; [|discriminate].
  destruct (detect target_image st3) as [st4 [dt|e]] eqn:E4; [|discriminate].
  assert (L3 : st3 = logged st2 [FaceAnalysisGet source_image]).
  { unfold detect, bind, emit in E3. cbn [fst snd] in E3.
    now injection E3 as <- _. }
  assert (L4 : st4 = logged st3 [FaceAnalysisGet target_image]).
  { unfold detect, bind, emit in E4. cbn [fst snd] in E4.
    now injection E4 as <- _. }
  unfold lift.
  destruct (get_face (sort_faces ds) source_index) as [sf|e] eqn:Es;
    [|discriminate].
  destruct (get_face (sort_faces dt) target_index) as [tf|e] eqn:Et;
    [|discriminate].
  destruct (swap model target_image tf sf st4) as [st5 [out|e]] eqn:E5;
    [|discriminate].
  assert (L5 : st5 = logged st4 [SwapperGet target_image]).
  { unfold swap, bind, emit in E5. cbn [fst snd] in E5.
    now injection E5 as <- _. }
  unfold image_to_base64, try_except, lift.
  destruct (png_base64 out) as [b64|e] eqn:Epng; [|discriminate].
  intros [= <- <-].
  apply get_face_ok in Es as [Hs Hsl]. apply get_face_ok in Et as [Ht Htl].
  rewrite sort_faces_length in Hs, Ht.
  exists st1, st2, st3, st4, n1, n2, source_image, target_image, ds, dt,
    sf, tf, model, out.
  repeat (split; [reflexivity || eassumption || lia|]).
  rewrite L5, L4, L3, L2, L1, !logged_logged. reflexivity.
Qed.

(** X17.  An index outside the faces found is a client error, whichever
    image it refers to and on whichever side it lies: once both images
    are fetched and scanned, a source index outside [1, N] fails with the
    400 message naming the [N] source faces; a valid source index with a
    target index outside [1, K] fails with the 400 message naming the [K]
    target faces.  Either way the request ends in the state reached
    after detection, without a call to the swapper. *)
Theorem index_out_of_range_is_400
    (source_url target_url : string) (source_index target_index : Z)
    (st st1 st2 st3 st4 : State) (app : FaceAnalysisApp)
    (model : SwapperModel) (source_image target_image : ndarray)
    (source_faces target_faces : list Face) :
  st.(face_analysis_app) = Some app ->
  st.(swapper_model) = Some model ->
  download_image source_url st = (st1, Ok source_image) ->
  download_image target_url st1 = (st2, Ok target_image) ->
  detect source_image st2 = (st3, Ok source_faces) ->
  detect target_image st3 = (st4, Ok target_faces) ->
  let N := Z.of_nat (length source_faces) in
  let K := Z.of_nat (length target_faces) in
  let run :=
    perform_face_swap_logic source_url target_url
      source_index target_index st in
  (source_index < 1 \/ N < source_index ->
   run = (st4, Raise (HTTPException 400
                        (face_index_message N source_index))))
  /\ (1 <= source_index <= N ->
      target_index < 1 \/ K < target_index ->
      run = (st4, Raise (HTTPException 400
                           (face_index_message K target_index)))).
Proof.
  intros Happ Hmodel E1 E2 E3 E4 N K run.
  assert (Hrun : run =
    match get_face (sort_faces source_faces) source_index with
    | Ok source_face =>
        match get_face (sort_faces target_faces) target_index with
        | Ok target_face =>
            (result_image <- swap model target_image target_face source_face ;;
             image_to_base64 result_image)%py st4
        | Raise e => (st4, Raise e)
        end
    | Raise e => (st4, Raise e)
    end).
  { unfold run, perform_face_swap_logic. rewrite Happ, Hmodel.
    unfold bind at 1. rewrite E1. unfold bind at 1. rewrite E2.
    unfold bind at 1. rewrite E3. unfold bind at 1. rewrite E4.
    unfold bind at 1. unfold lift at 1.
    destruct (get_face (sort_faces source_faces) source_index);
      [|reflexivity].
    unfold bind at 1. unfold lift at 1.
    destruct (get_face (sort_faces target_faces) target_index); reflexivity. }
  split.
  - intros Hs. rewrite Hrun, get_face_out_of_range;
      rewrite sort_faces_length; [reflexivity | exact Hs].
  - intros Hs Ht. rewrite Hrun.
    destruct (get_face_in_range (sort_faces source_faces) source_index)
      as [sf ->]; [now rewrite sort_faces_length|].
    rewrite get_face_out_of_range; rewrite sort_faces_length;
      [reflexivity | exact Ht].
Qed.

(** X18.  [/swap] and [/runsync] run the same pipeline and differ only
    in how they report.  They leave the process in the same state; they
    succeed together, with the same image; and when the pipeline fails
    [/swap] raises an [HTTPException] whose detail is the message that
    [/runsync] returns: [/swap] keeps the status of an [HTTPException]
    and answers 500 for any other exception, while [/runsync] answers
    200. *)
Theorem endpoints_agree (request : RunPodRequest) (st : State) :
  let pipeline :=
    perform_face_swap_logic request.(input).(source_url)
      request.(input).(target_url) request.(input).(source_index)
      request.(input).(target_index) st in
  let direct := swap_faces request.(input) st in
  let envelope := runsync_face_swap request st in
  direct.1 = envelope.1
  /\ (forall result_base64,
        pipeline.2 = Ok result_base64 ->
        direct.2 = Ok (true, result_base64, "Face swap completed successfully")
        /\ exists response,
             envelope.2 = Ok response
             /\ response.(output).(success) = true
             /\ response.(output).(image_base64) = Some result_base64)
  /\ (forall e,
        pipeline.2 = Raise e ->
        direct.2 = Raise (HTTPException (transport_status pipeline.2)
                            (failure_message e))
        /\ exists response,
             envelope.2 = Ok response
             /\ response.(output).(success) = false
             /\ response.(output).(message) = failure_message e).
Proof.
  cbv zeta. unfold swap_faces, runsync_face_swap.
  destruct (perform_face_swap_logic _ _ _ _ st) as [st' [b64|e]];
    cbn [fst snd].
  - split; [reflexivity|]. split; [|discriminate].
    intros b [= <-]. split; [reflexivity|]. eexists. repeat split.
  - destruct e as [sc d|msg|msg]; cbn [fst snd];
      (split; [reflexivity|]; split; [discriminate|];
       intros e' [= <-]; split; [reflexivity|]; eexists; repeat split).
Qed.

End PipelineMore.

Lemma successful_request_trace_witness :
  exists st2 st3 source_image detected_source source_face,
    detect source_image st2 = (st3, Ok detected_source)
    /\ sort_faces detected_source !! 1%nat = Some source_face
    /\ exists n1 n2 target_image,
         (perform_face_swap_logic "source" "target" 2 1 ready).1
         = logged ready [ RequestsGet "source" n1; ImageOpen n1;
                          RequestsGet "target" n2; ImageOpen n2;
                          FaceAnalysisGet source_image;
                          FaceAnalysisGet target_image;
                          SwapperGet target_image ].
Proof.
  destruct (successful_request_trace "source" "target" 2 1 ready
              (perform_face_swap_logic "source" "target" 2 1 ready).1
              "iVBORw0KGgo=")
    as (st1 & st2 & st3 & st4 & n1 & n2 & simg & timg & ds & dt & sf & tf
        & model & out & _ & _ & _ & E3 & _ & Hs & _ & _ & _ & _ & _ & E).
  - vm_compute. reflexivity.
  - exists st2, st3, simg, ds, sf. split; [exact E3|]. split; [exact Hs|].
    exists n1, n2, timg. exact E.
Defined.

Lemma index_out_of_range_is_400_witness :
  perform_face_swap_logic "source" "target" 5 1 ready
  = (scanned_target,
     Raise (HTTPException 400
       "The image includes only 3 faces, however, you asked for face 5"))
  /\ perform_face_swap_logic "source" "target" 1 4 ready
     = (scanned_target,
        Raise (HTTPException 400
          "The image includes only 3 faces, however, you asked for face 4")).
Proof.
  split.
  - pose proof (index_out_of_range_is_400 "source" "target" 5 1
                  ready fetched_source fetched_target scanned_source
                  scanned_target buffalo_l {| loaded_from := "inswapper_128" |}
                  demo_image demo_image demo_faces demo_faces
                  eq_refl eq_refl) as Hrange.
    apply Hrange; try (vm_compute; reflexivity). right. simpl. lia.
  - pose proof (index_out_of_range_is_400 "source" "target" 1 4
                  ready fetched_source fetched_target scanned_source
                  scanned_target buffalo_l {| loaded_from := "inswapper_128" |}
                  demo_image demo_image demo_faces demo_faces
                  eq_refl eq_refl) as Hrange.
    apply Hrange; try (vm_compute; reflexivity); simpl; lia.
Defined.

Lemma endpoints_agree_witness :
  (swap_faces (demo_request "source" 2 1).(input) ready).2
  = Ok (true, "iVBORw0KGgo=", "Face swap completed successfully")
  /\ (swap_faces (demo_request "source" 0 1).(input) ready).2
     = Raise (HTTPException 400
         "The image includes only 3 faces, however, you asked for face 0").
Proof.
  split.
  - destruct (endpoints_agree (demo_request "source" 2 1) ready)
      as (_ & Hok & _).
    apply Hok. vm_compute. reflexivity.
  - destruct (endpoints_agree (demo_request "source" 0 1) ready)
      as (_ & _ & Hfail).
    destruct (Hfail (HTTPException 400
      "The image includes only 3 faces, however, you asked for face 0"))
      as [Hdirect _]; [vm_compute; reflexivity|].
    exact Hdirect.
Defined.

(** ** Health endpoint *)

Section HealthFacts.
Context `{Collaborators}.

Lemma logged_nil st : logged st [] = st.
Proof. destruct st. unfold logged. cbn. now rewrite app_nil_r. Qed.

Lemma valid_at_logged st evs p : valid_at (logged st evs) p <-> valid_at st p.
Proof. reflexivity. Qed.

Lemma first_valid_path_spec paths st :
  exists evs active,
    first_valid_path paths st = (logged st evs, Ok active)
    /\ Forall (fun e => is_structural_load e = true) evs
    /\ match active with
       | Some p => p ∈ paths /\ valid_at st p
       | None => forall p, p ∈ paths -> ~ valid_at st p
       end.
Proof.
  revert st. induction paths as [|path rest IH]; intros st.
  - exists [], None. rewrite logged_nil. repeat split; [constructor|].
    intros p Hp. now apply elem_of_nil in Hp.
  - cbn [first_valid_path].
    destruct (path_exists (fs st) path) eqn:Eex.
    + unfold validate_onnx_model. rewrite Eex. cbn [negb emit fst snd fs].
      fold (logged st [OrtInferenceSession path]).
      destruct (fs st !! abspath path) as [bytes|] eqn:Eb.
      * destruct (ort_loads bytes) eqn:Eort.
        -- exists [OrtInferenceSession path], (Some path).
           split; [reflexivity|]. split; [now constructor|].
           split; [now left|]. split; [exact Eex | eauto].
        -- destruct (IH (logged st [OrtInferenceSession path]))
             as (evs & active & E & F & Hact).
           exists (OrtInferenceSession path :: evs), active.
           rewrite E, logged_logged. split; [reflexivity|].
           split; [now constructor|].
           destruct active as [p|].
           ++ destruct Hact as [Hin Hv]. split; [now right | exact Hv].
           ++ intros p Hp. apply elem_of_cons in Hp as [->|Hp];
                [|now apply Hact].
              intros [_ (b & Hb & Hl)]. congruence.
      * destruct (IH (logged st [OrtInferenceSession path]))
          as (evs & active & E & F & Hact).
        exists (OrtInferenceSession path :: evs), active.
        rewrite E, logged_logged. split; [reflexivity|].
        split; [now constructor|].
        destruct active as [p|].
        -- destruct Hact as [Hin Hv]. split; [now right | exact Hv].
        -- intros p Hp. apply elem_of_cons in Hp as [->|Hp];
             [|now apply Hact].
           intros [_ (b & Hb & _)]. congruence.
    + destruct (IH st) as (evs & active & E & F & Hact).
      exists evs, active. split; [exact E|]. split; [exact F|].
      destruct active as [p|].
      * destruct Hact as [Hin Hv]. split; [now right | exact Hv].
      * intros p Hp. apply elem_of_cons in Hp as [->|Hp]; [|now apply Hact].
        intros [Hex _]. congruence.
Qed.

Lemma first_valid_model_spec variants st :
  exists evs active,
    first_valid_model variants st = (logged st evs, Ok active)
    /\ Forall (fun e => is_structural_load e = true) evs
    /\ match active with
       | Some p =>
           exists variant, variant ∈ variants
                           /\ p ∈ possible_paths variant /\ valid_at st p
       | None =>
           forall variant p,
             variant ∈ variants -> p ∈ possible_paths variant ->
             ~ valid_at st p
       end.
Proof.
  revert st. induction variants as [|variant rest IH]; intros st.
  - exists [], None. rewrite logged_nil. repeat split; [constructor|].
    intros v p Hv. now apply elem_of_nil in Hv.
  - cbn [first_valid_model].
    destruct (first_valid_path_spec (possible_paths variant) st)
      as (evs1 & active1 & E1 & F1 & H1).
    rewrite E1. destruct active1 as [p|].
    + exists evs1, (Some p). split; [reflexivity|]. split; [exact F1|].
      exists variant. destruct H1. split; [now left | now split].
    + destruct (IH (logged st evs1)) as (evs2 & active & E2 & F2 & H2).
      exists (evs1 ++ evs2), active. rewrite E2, logged_logged.
      split; [reflexivity|]. split; [now apply Forall_app|].
      destruct active as [p|].
      * destruct H2 as (v & Hv & Hp & Hval). exists v.
        split; [now right | now split].
      * intros v p Hv Hp. apply elem_of_cons in Hv as [->|Hv].
        -- now apply H1.
        -- now apply (H2 v p).
Qed.

(** What [/health] does, in full. *)
Lemma health_check_spec memory_mb version st :
  exists evs reply,
    health_check memory_mb version st = (logged st evs, Ok reply)
    /\ Forall (fun e => is_structural_load e = true) evs
    /\ reply.(health_status)
       = (if bool_decide (is_Some st.(face_analysis_app))
             && bool_decide (is_Some st.(swapper_model))
          then "healthy" else "unhealthy")
    /\ reply.(face_analysis_ready)
       = bool_decide (is_Some st.(face_analysis_app))
    /\ reply.(swapper_model_ready) = bool_decide (is_Some st.(swapper_model))
    /\ reply.(model_file_valid) = bool_decide (is_Some reply.(active_model))
    /\ match reply.(active_model) with
       | Some p =>
           exists variant, variant ∈ model_paths
                           /\ p ∈ possible_paths variant /\ valid_at st p
       | None =>
           forall variant p,
             variant ∈ model_paths -> p ∈ possible_paths variant ->
             ~ valid_at st p
       end.
Proof.
  unfold health_check.
  destruct (first_valid_model_spec model_paths st)
    as (evs & active & E & F & Hact).
  rewrite E. eexists evs, _. split; [reflexivity|].
  cbn [health_status face_analysis_ready swapper_model_ready
       model_file_valid active_model logged face_analysis_app swapper_model].
  repeat (split; [reflexivity || assumption|]). exact Hact.
Qed.

(** X19.  [/health] is read-only and cannot fail: it returns a report,
    and the only thing it does on the way is to ask ONNX Runtime to load
    model files; files, cache slot and globals are as before.  The
    status is "healthy" exactly when both engine globals are set,
    whatever is on disk, and [model_file_valid] says whether an active
    model file was found. *)
Theorem health_is_read_only (memory_mb : float) (version : string)
    (st : State) :
  exists evs reply,
    health_check memory_mb version st = (logged st evs, Ok reply)
    /\ Forall (fun e => is_structural_load e = true) evs
    /\ (reply.(health_status) = "healthy"
        <-> is_Some st.(face_analysis_app) /\ is_Some st.(swapper_model))
    /\ (reply.(health_status) = "unhealthy"
        <-> ~ (is_Some st.(face_analysis_app) /\ is_Some st.(swapper_model)))
    /\ (reply.(model_file_valid) = true <-> is_Some reply.(active_model)).
Proof.
  destruct (health_check_spec memory_mb version st)
    as (evs & reply & E & F & Hs & _ & _ & Hv & _).
  exists evs, reply. split; [exact E|]. split; [exact F|].
  rewrite Hs, Hv. rewrite bool_decide_eq_true.
  destruct (decide (is_Some (face_analysis_app st))) as [Ha|Ha];
    destruct (decide (is_Some (swapper_model st))) as [Hm|Hm];
    rewrite ?(bool_decide_eq_true_2 _ Ha), ?(bool_decide_eq_false_2 _ Ha),
      ?(bool_decide_eq_true_2 _ Hm), ?(bool_decide_eq_false_2 _ Hm);
    cbn [andb]; repeat split; try tauto; try discriminate;
    intros; tauto.
Qed.

(** X20.  The active model that [/health] reports is real: it is a
    probed location of one of the two variants and holds a file that ONNX
    Runtime loads.  And when none is reported, no probed location of
    either variant holds such a file. *)
Theorem health_active_model_is_valid (memory_mb : float) (version : string)
    (st : State) (reply : HealthReply) :
  (health_check memory_mb version st).2 = Ok reply ->
  (forall p, reply.(active_model) = Some p ->
     exists variant, variant ∈ model_paths
                     /\ p ∈ possible_paths variant /\ valid_at st p)
  /\ (reply.(active_model) = None ->
      forall variant p,
        variant ∈ model_paths -> p ∈ possible_paths variant ->
        ~ valid_at st p).
Proof.
  destruct (health_check_spec memory_mb version st)
    as (evs & reply' & E & _ & _ & _ & _ & _ & Hact).
  rewrite E. intros [= <-].
  destruct (active_model reply') as [p|].
  - split; [|discriminate]. now intros p' [= <-].
  - split; [discriminate|]. intros _. exact Hact.
Qed.

(** X21.  The health status follows the life cycle of the engines: right
    after a successful [prepare_app] it is "healthy", and right after a
    successful [/fix-model] it is "unhealthy", until the engines are
    prepared again. *)
Theorem health_follows_life_cycle (memory_mb : float) (version : string)
    (st : State) :
  (forall st' bundle,
     prepare_app st = (st', Ok bundle) ->
     exists reply, (health_check memory_mb version st').2 = Ok reply
                   /\ reply.(health_status) = "healthy")
  /\ (forall st' reply',
        fix_model_endpoint st = (st', Ok reply') ->
        reply'.(fix_success) = true ->
        exists reply, (health_check memory_mb version st').2 = Ok reply
                      /\ reply.(health_status) = "unhealthy").
Proof.
  split.
  - intros st' [app swapper] Hp.
    destruct (health_check_spec memory_mb version st')
      as (evs & reply & E & _ & Hs & _).
    exists reply. rewrite E. split; [reflexivity|]. rewrite Hs.
    unfold prepare_app in Hp.
    destruct (get_cached_models st) as [st1 [[a s]|e]]; [|discriminate].
    injection Hp as <- _ _. reflexivity.
  - intros st' reply' Hf Hs'.
    destruct (health_check_spec memory_mb version st')
      as (evs & reply & E & _ & Hs & _).
    exists reply. rewrite E. split; [reflexivity|]. rewrite Hs.
    unfold fix_model_endpoint in Hf.
    destruct (fix_corrupted_model "inswapper_128.onnx" st)
      as [st1 [[|]|e]]; injection Hf as <- <-;
      [reflexivity | discriminate Hs' | discriminate Hs'].
Qed.

End HealthFacts.

(** ** The whole request, and the serverless worker *)

Section WorkerFacts.
Context `{Collaborators}.

Lemma ingest_is_request e : ingest_event e = true -> request_event e = true.
Proof. unfold request_event. now intros ->. Qed.

Lemma locator_is_request e : is_locator_call e = true -> request_event e = true.
Proof. unfold request_event. intros ->. now rewrite orb_true_r. Qed.

Lemma request_not_load e :
  request_event e = true ->
  is_structural_load e = false /\ is_engine_init e = false
  /\ is_get_model e = false.
Proof. now destruct e. Qed.

Lemma download_image_fs url st : (download_image url st).1.(fs) = st.(fs).
Proof.
  unfold download_image, try_except, download_image_try, bind, lift, emit.
  destruct (requests_get (log st) url) as [response|e0];
    [|destruct e0; reflexivity].
  cbn [fst snd fs log lru face_analysis_app swapper_model].
  destruct (raise_for_status response) as [[]|e1];
    [|destruct e1; reflexivity].
  destruct (check_content_length response) as [[]|e2];
    [|destruct e2; reflexivity].
  cbn [fst snd fs log lru face_analysis_app swapper_model].
  destruct (image_open (content response)) as [img|e3];
    [|destruct e3; reflexivity].
  match goal with
  | |- context [validate_and_resize_image ?a 1024] =>
      destruct (validate_and_resize_image a 1024) as [out|e4];
        [|destruct e4]; reflexivity
  end.
Qed.

Lemma keeps_swap model image target_face source_face :
  keeps request_event (swap model image target_face source_face).
Proof.
  unfold swap. apply keeps_bind; [now apply keeps_emit|].
  intros _ st. apply ext_refl.
Qed.

Lemma ingest_count st st' :
  ext ingest_event st st' ->
  count is_swapper_call st'.(log) = count is_swapper_call st.(log).
Proof.
  apply ext_count. intros e He.
  apply not_swapper_disjoint, ingest_not_swapper, He.
Qed.

Lemma locator_count st st' :
  ext is_locator_call st st' ->
  count is_swapper_call st'.(log) = count is_swapper_call st.(log).
Proof.
  apply ext_count. intros e He.
  apply not_swapper_disjoint, locator_not_swapper, He.
Qed.

Lemma perform_face_swap_logic_frame source_url target_url i j st :
  let run := perform_face_swap_logic source_url target_url i j st in
  ext request_event st run.1 /\ run.1.(fs) = st.(fs)
  /\ (count is_swapper_call run.1.(log)
      <= count is_swapper_call st.(log) + 1)%nat
  /\ (count is_swapper_call run.1.(log) = count is_swapper_call st.(log)
      \/ exists image, last run.1.(log) = Some (SwapperGet image)).
Proof.
  cbv zeta. unfold perform_face_swap_logic.
  destruct (face_analysis_app st) as [app|];
    [|cbn [fst]; split; [apply ext_refl|]; split; [reflexivity|];
      split; [lia|now left]].
  destruct (swapper_model st) as [model|];
    [|cbn [fst]; split; [apply ext_refl|]; split; [reflexivity|];
      split; [lia|now left]].
  unfold bind.
  pose proof (keeps_download_image source_url st) as H1.
  pose proof (download_image_fs source_url st) as F1.
  pose proof (ingest_count _ _ H1) as C1.
  apply (ext_weaken _ _ _ _ ingest_is_request) in H1.
  destruct (download_image source_url st) as [st1 [source_image|e]];
    cbn [fst snd] in *;
    [|split; [exact H1|]; split; [exact F1|]; rewrite C1;
      split; [lia | now left]].
  pose proof (keeps_download_image target_url st1) as H2.
  pose proof (download_image_fs target_url st1) as F2.
  pose proof (ingest_count _ _ H2) as C2.
  apply (ext_weaken _ _ _ _ ingest_is_request) in H2.
  pose proof (ext_trans _ _ _ _ H1 H2) as R2.
  destruct (download_image target_url st1) as [st2 [target_image|e]];
    cbn [fst snd] in *;
    [|split; [exact R2|]; split; [congruence|]; rewrite C2, C1;
      split; [lia | now left]].
  pose proof (keeps_detect source_image st2) as H3.
  assert (F3 : (detect source_image st2).1.(fs) = st2.(fs)) by reflexivity.
  pose proof (locator_count _ _ H3) as C3.
  apply (ext_weaken _ _ _ _ locator_is_request) in H3.
  pose proof (ext_trans _ _ _ _ R2 H3) as R3.
  destruct (detect source_image st2) as [st3 [source_faces|e]];
    cbn [fst snd] in *;
    [|split; [exact R3|]; split; [congruence|]; rewrite C3, C2, C1;
      split; [lia | now left]].
  pose proof (keeps_detect target_image st3) as H4.
  assert (F4 : (detect target_image st3).1.(fs) = st3.(fs)) by reflexivity.
  pose proof (locator_count _ _ H4) as C4.
  apply (ext_weaken _ _ _ _ locator_is_request) in H4.
  pose proof (ext_trans _ _ _ _ R3 H4) as R4.
  destruct (detect target_image st3) as [st4 [target_faces|e]];
    cbn [fst snd] in *;
    [|split; [exact R4|]; split; [congruence|]; rewrite C4, C3, C2, C1;
      split; [lia | now left]].
  unfold lift.
  destruct (get_face (sort_faces source_faces) i) as [source_face|e];
    cbn [fst snd];
    [|split; [exact R4|]; split; [congruence|]; rewrite C4, C3, C2, C1;
      split; [lia | now left]].
  destruct (get_face (sort_faces target_faces) j) as [target_face|e];
    cbn [fst snd];
    [|split; [exact R4|]; split; [congruence|]; rewrite C4, C3, C2, C1;
      split; [lia | now left]].
  pose proof (keeps_swap model target_image target_face source_face st4)
    as H5.
  pose proof (ext_trans _ _ _ _ R4 H5) as R5.
  assert (F5 : (swap model target_image target_face source_face st4).1.(fs)
               = st4.(fs)) by reflexivity.
  assert (L5 : (swap model target_image target_face source_face st4).1.(log)
               = st4.(log) ++ [SwapperGet target_image]) by reflexivity.
  assert (S6 : forall result_image s,
             (image_to_base64 result_image s).1 = s).
  { intros result_image s. unfold image_to_base64, try_except, lift.
    destruct (png_base64 result_image); reflexivity. }
  destruct (swap model target_image target_face source_face st4)
    as [st5 [result_image|e]]; cbn [fst snd] in *; rewrite ?S6;
    (split; [exact R5|]; split; [congruence|];
     rewrite L5, count_app, C4, C3, C2, C1;
     change (count is_swapper_call [SwapperGet target_image]) with 1%nat;
     split; [lia|]; right; exists target_image; apply last_snoc).
Qed.

(** X22.  A request, whatever its outcome, is contained: it leaves the
    files, the cache slot and the two engine globals as they were; the
    only outside calls it makes are image fetches and decodes, locator
    runs and the swapper run, so it never loads or validates a model and
    never initializes an engine; and it runs the swapper at most once,
    after which it fetches, decodes and scans nothing more. *)
Theorem request_is_contained
    (source_url target_url : string) (source_index target_index : Z)
    (st : State) :
  let run :=
    perform_face_swap_logic source_url target_url
      source_index target_index st in
  run.1.(fs) = st.(fs) /\ run.1.(lru) = st.(lru)
  /\ run.1.(face_analysis_app) = st.(face_analysis_app)
  /\ run.1.(swapper_model) = st.(swapper_model)
  /\ (exists evs,
        run.1.(log) = st.(log) ++ evs
        /\ Forall (fun e => request_event e = true) evs
        /\ Forall (fun e => is_structural_load e = false
                            /\ is_engine_init e = false
                            /\ is_get_model e = false) evs)
  /\ (count is_swapper_call run.1.(log)
      <= count is_swapper_call st.(log) + 1)%nat
  /\ (count is_swapper_call run.1.(log) = count is_swapper_call st.(log)
      \/ exists image, last run.1.(log) = Some (SwapperGet image)).
Proof.
  cbv zeta.
  destruct (perform_face_swap_logic_frame source_url target_url
              source_index target_index st)
    as ((L & A & S & evs & E & F) & Ffs & Hc & Hlast).
  repeat (split; [assumption|]). split; [|now split].
  exists evs. split; [exact E|]. split; [exact F|].
  apply Forall_forall. intros e He. apply request_not_load.
  rewrite Forall_forall in F. now apply F.
Qed.

(** X23.  The worker's handler always replies: no exception leaves it.
    A reply is a success exactly when it carries an image, and a failure
    exactly when it carries an error text; a success is a result of the
    shared pipeline, with the fixed success message. *)
Theorem handler_always_replies (event_input : option HandlerInput)
    (st : State) :
  exists st' reply,
    handler event_input st = (st', Ok reply)
    /\ (reply.(reply_success) = true <-> is_Some reply.(reply_image_base64))
    /\ (reply.(reply_success) = false <-> is_Some reply.(reply_error))
    /\ (reply.(reply_success) = true ->
        reply.(reply_message) = Some "Face swap completed successfully"
        /\ exists input_data request result_base64,
             event_input = Some input_data
             /\ parse_input input_data = Some request
             /\ perform_face_swap_logic request.(input).(source_url)
                  request.(input).(target_url)
                  request.(input).(source_index)
                  request.(input).(target_index) st
                = (st', Ok result_base64)
             /\ reply.(reply_image_base64) = Some result_base64).
Proof.
  unfold handler, parse_input.
  destruct event_input as [[[s|] [t|] i j]|];
    cbn [from_option id
         in_source_url in_target_url in_source_index in_target_index].
  2-5: (eexists st, _; split; [reflexivity|]; cbn;
        split; [split; [discriminate | intros [? [=]]]|];
        split; [split; eauto|]; discriminate).
  destruct (perform_face_swap_logic s t (default 1 i) (default 1 j) st)
    as [st' [b64|e]] eqn:E; eexists st', _; (split; [reflexivity|]); cbn.
  - split; [split; eauto|].
    split; [split; [discriminate | intros [? [=]]]|].
    intros _. split; [reflexivity|]. eexists _, _, b64.
    split; [reflexivity|]. split; [reflexivity|]. cbn. now split.
  - split; [split; [discriminate | intros [? [=]]]|].
    split; [split; eauto|]. discriminate.
Qed.

(** X24.  An event without [input], or whose input lacks [source_url] or
    [target_url], is refused before anything is done: the state is
    untouched (no fetch, no engine call, and no look at whether the
    engines are initialized), and the reply is a failure without a
    message that names the first missing key, [source_url] before
    [target_url]. *)
Theorem handler_missing_parameter (event_input : option HandlerInput)
    (st : State) :
  parse_input (default
    {| in_source_url := None; in_target_url := None;
       in_source_index := None; in_target_index := None |} event_input)
  = None ->
  let key :=
    match event_input with
    | Some {| in_source_url := Some _ |} => "target_url"
    | _ => "source_url"
    end in
  handler event_input st
  = (st, Ok {| reply_success := false;
               reply_error := Some ("Missing required parameter: " +:+ key);
               reply_image_base64 := None; reply_message := None |}).
Proof.
  unfold handler, parse_input.
  destruct event_input as [[[s|] [t|] i j]|]; cbn; try discriminate;
    reflexivity.
Qed.


(** X26.  The worker's [initialize] never raises.  When it answers
    [True] both engine globals and the cache slot are set.  When it
    answers [False] they are as before, and if no swapper was loaded
    before, every later event is answered with a failure without any
    outside call. *)
Theorem initialize_reports_preparation (st : State) :
  exists st' ok,
    initialize st = (st', Ok ok)
    /\ (ok = true ->
        is_Some st'.(face_analysis_app) /\ is_Some st'.(swapper_model)
        /\ is_Some st'.(lru))
    /\ (ok = false ->
        st'.(face_analysis_app) = st.(face_analysis_app)
        /\ st'.(swapper_model) = st.(swapper_model)
        /\ st'.(lru) = st.(lru)
        /\ (st.(swapper_model) = None ->
            forall event_input,
            exists reply,
              handler event_input st' = (st', Ok reply)
              /\ reply.(reply_success) = false)).
Proof.
  unfold initialize, prepare_app, get_cached_models.
  destruct (lru st) as [[a s]|] eqn:El.
  - eexists _, true. split; [reflexivity|]. cbn. split; [|discriminate].
    intros _. rewrite El. eauto.
  - pose proof (initialization_frame_aux st) as (L & A & S).
    destruct (get_cached_models_body st) as [st1 [[a s]|e]];
      cbn [fst snd set_lru set_globals] in *.
    + eexists _, true. split; [reflexivity|]. cbn. split; [|discriminate].
      intros _. eauto.
    + eexists st1, false. split; [reflexivity|]. split; [discriminate|].
      intros _. rewrite L, El. repeat (split; [assumption || reflexivity|]).
      intros Hnone event_input. unfold handler, perform_face_swap_logic.
      rewrite S, Hnone.
      destruct (default _ event_input) as [[s|] [t|] i j]; cbn;
        try (eexists; split; reflexivity).
      destruct (face_analysis_app st1); eexists; split; reflexivity.
Qed.

End WorkerFacts.

Lemma health_active_model_is_valid_witness :
  exists variant,
    variant ∈ model_paths
    /\ "inswapper_128.onnx" ∈ possible_paths variant
    /\ valid_at valid_model_on_disk "inswapper_128.onnx".
Proof.
  pose proof (health_active_model_is_valid 0%float "0.7.3"
                valid_model_on_disk
                {| health_status := "unhealthy";
                   face_analysis_ready := false;
                   swapper_model_ready := false;
                   model_file_valid := true;
                   active_model := Some "inswapper_128.onnx";
                   memory_usage_mb := 0%float;
                   insightface_version := "0.7.3" |}) as Hv.
  destruct Hv as [Hsome _]; [vm_compute; reflexivity|].
  apply Hsome. reflexivity.
Defined.

Lemma health_follows_life_cycle_witness :
  (exists reply,
     (health_check 0%float "0.7.3" (prepare_app empty_model_on_disk).1).2
     = Ok reply
     /\ reply.(health_status) = "healthy")
  /\ (exists reply,
        (health_check 0%float "0.7.3"
           (fix_model_endpoint empty_model_on_disk).1).2 = Ok reply
        /\ reply.(health_status) = "unhealthy").
Proof.
  destruct (health_follows_life_cycle 0%float "0.7.3" empty_model_on_disk)
    as [Hprepared Hfixed].
  split.
  - destruct (prepare_app empty_model_on_disk) as [st' [bundle|e]] eqn:E;
      [exact (Hprepared st' bundle eq_refl) | vm_compute in E; discriminate E].
  - destruct (fix_model_endpoint empty_model_on_disk) as [st' [reply'|e]] eqn:E;
      [|vm_compute in E; discriminate E].
    apply (Hfixed st' reply' eq_refl).
    vm_compute in E. now injection E as _ <-.
Defined.

Lemma handler_missing_parameter_witness :
  handler None ready
  = (ready, Ok {| reply_success := false;
                  reply_error :=
                    Some "Missing required parameter: source_url";
                  reply_image_base64 := None; reply_message := None |})
  /\ handler (Some {| in_source_url := Some "source"; in_target_url := None;
                      in_source_index := Some 1; in_target_index := None |})
       fresh
     = (fresh, Ok {| reply_success := false;
                     reply_error :=
                       Some "Missing required parameter: target_url";
                     reply_image_base64 := None; reply_message := None |}).
Proof.
  split.
  - exact (handler_missing_parameter None ready eq_refl).
  - exact (handler_missing_parameter
             (Some {| in_source_url := Some "source"; in_target_url := None;
                      in_source_index := Some 1; in_target_index := None |})
             fresh eq_refl).
Defined.

